(** * rend: the memcached backend handler (handlers/memcached/std/handler.go)

    A shallow embedding of the handler that speaks the memcached binary
    protocol to a remote server over one buffered connection, and the
    properties of its mutation path, its batched get pipelines, GAT and
    Close.

    The Go code mutates one connection through a [bufio.ReadWriter]; here
    every function is a state transformer over [State], which holds the
    connection, the two buffered views, the metrics counters and the
    response-header pool.  Go's [error] results are [option error] values
    ([None] is [nil]).  The background task of a batched get is the list
    of its channel operations, in the order it performs them, and the way
    it ends.  Package [binprot] and the helpers [getLocal] and
    [simpleCmdLocal] are not in the handler's file: they are parameters
    ([Binprot], [StdLocal]), with one concrete instance, [Memcached], to
    run the handler on byte streams. *)

From stdpp Require Import base option list strings.
From Stdlib Require Import NArith ZArith Lia.

Local Open Scope N_scope.

(** ** Bytes, integers, errors *)

Abbreviation byte := Byte.byte.

(** [uint32(x)]: Go's conversion of an [int] length to 32 bits wraps around. *)
Definition uint32 (x : N) : N := x mod 2 ^ 32.

(** [len(b)] for a byte slice. *)
Definition len (b : list byte) : N := N.of_nat (length b).

(** Go [error] values the handler can meet.  [ErrKeyNotFound] and
    [ErrKeyExists] are the sentinels of package [common]; the [io] and
    [bufio] sentinels come from the transport; [ErrOther] stands for every
    other error value, told apart by its message. *)
Inductive error : Type :=
  | ErrKeyNotFound
  | ErrKeyExists
  | ErrShortWrite
  | ErrNegativeCount
  | ErrClosed
  | EOF
  | ErrOther (msg : string).

#[global] Instance error_eq_dec : EqDecision error.
Proof. solve_decision. Defined.

(** ** The connection and its buffered views *)

(** The write half of the [io.ReadWriteCloser].  [wire] is what the peer has
    received so far.  [wbudget = Some (n, e)] is a transport that accepts [n]
    more bytes and then fails every write with [e]; [None] never fails.  A
    closed connection accepts nothing. *)
Record Conn : Type := mkConn {
  wire : list byte;
  wbudget : option (nat * error);
  closed : bool;
  close_err : option error
}.

(** [conn.Write(p)]: the number of bytes accepted and the error that stopped
    the write early, if any. *)
Definition conn_Write (p : list byte) (c : Conn) : (nat * option error) * Conn :=
  if closed c then ((0%nat, Some ErrClosed), c)
  else match wbudget c with
       | None =>
           ((length p, None),
            mkConn (wire c ++ p) None (closed c) (close_err c))
       | Some (n, e) =>
           if (length p <=? n)%nat then
             ((length p, None),
              mkConn (wire c ++ p) (Some ((n - length p)%nat, e)) (closed c) (close_err c))
           else
             ((n, Some e),
              mkConn (wire c ++ take n p) (Some (0%nat, e)) (closed c) (close_err c))
       end.

(** [conn.Close()]. *)
Definition conn_Close (c : Conn) : option error * Conn :=
  (close_err c, mkConn (wire c) (wbudget c) true (close_err c)).

(** [bufio.Writer]: the sticky error, the bytes buffered and not yet handed
    to the connection, and the buffer size. *)
Record Writer : Type := mkWriter {
  w_err : option error;
  w_buf : list byte;
  w_size : nat
}.

(** The read half as [bufio.Reader] presents it: the bytes it will still
    deliver, buffered or in flight, in order, and the error the transport
    reports once they are used up. *)
Record Reader : Type := mkReader {
  r_stream : list byte;
  r_err : error
}.

(** [r.Discard(n)]: skips [n] bytes; when fewer are left, skips what is
    there and reports the transport's error. *)
Definition Reader_Discard (n : Z) (r : Reader) : (N * option error) * Reader :=
  if (n <? 0)%Z then ((0, Some ErrNegativeCount), r)
  else if (n =? 0)%Z then ((0, None), r)
  else if (Z.to_nat n <=? length (r_stream r))%nat then
    ((Z.to_N n, None), mkReader (drop (Z.to_nat n) (r_stream r)) (r_err r))
  else
    ((len (r_stream r), Some (r_err r)), mkReader [] (r_err r)).

(** ** Protocol data *)

(** Modelled from the spec: package [binprot]'s response header is not in
    the handler's file; the spec lists its status code, total body length,
    extras and key lengths, opaque token and CAS value.  It is a struct
    passed by value. *)
Record ResponseHeader : Type := mkResponseHeader {
  Opcode : N;
  KeyLength : N;
  ExtraLength : N;
  Status : N;
  TotalBodyLength : N;
  OpaqueToken : N;
  CASToken : N
}.

(** [binprot.ResponseHeader{}] *)
Definition emptyResHeader : ResponseHeader := mkResponseHeader 0 0 0 0 0 0 0.

(** Modelled from the spec: the request shapes of package [common]. *)
Record SetRequest : Type := mkSetRequest {
  set_Key : list byte;
  set_Flags : N;
  set_Exptime : N;
  set_Data : list byte
}.

Record GetRequest : Type := mkGetRequest {
  Keys : list (list byte);
  Opaques : list N;
  Quiet : list bool
}.

Record GATRequest : Type := mkGATRequest {
  gat_Key : list byte;
  gat_Exptime : N;
  gat_Opaque : N
}.

Record DeleteRequest : Type := mkDeleteRequest { del_Key : list byte }.

Record TouchRequest : Type := mkTouchRequest {
  touch_Key : list byte;
  touch_Exptime : N
}.

(** A [[]byte] payload: [None] is the nil slice. *)
Record GetResponse : Type := mkGetResponse {
  Miss : bool;
  rQuiet : bool;
  Opaque : N;
  Flags : N;
  Key : list byte;
  Data : option (list byte)
}.

Record GetEResponse : Type := mkGetEResponse {
  eMiss : bool;
  eQuiet : bool;
  eOpaque : N;
  eFlags : N;
  eExptime : N;
  eKey : list byte;
  eData : option (list byte)
}.

(** [common.GetResponse{}] *)
Definition emptyGetResponse : GetResponse := mkGetResponse false false 0 0 [] None.

(** The commands the codec encodes, with the arguments of the
    corresponding [binprot.Write*Cmd]. *)
Inductive Command : Type :=
  | CmdSet (key : list byte) (flags exptime dataSize opaque : N)
  | CmdAdd (key : list byte) (flags exptime dataSize opaque : N)
  | CmdReplace (key : list byte) (flags exptime dataSize opaque : N)
  | CmdAppend (key : list byte) (flags exptime dataSize opaque : N)
  | CmdPrepend (key : list byte) (flags exptime dataSize opaque : N)
  | CmdGet (key : list byte) (opaque : N)
  | CmdGetE (key : list byte) (opaque : N)
  | CmdGAT (key : list byte) (exptime opaque : N)
  | CmdDelete (key : list byte) (opaque : N)
  | CmdTouch (key : list byte) (exptime opaque : N).

(** ** The state the handler works on *)

(** The two local byte counters of package [metrics]. *)
Record Metrics : Type := mkMetrics {
  MetricBytesWrittenLocal : N;
  MetricBytesReadLocal : N
}.

(** What happens to response headers, in program order: the codec hands
    one out, the handler makes a zero value of its own, classifies a
    header, releases it to the pool, reads its [TotalBodyLength]. *)
Inductive HeaderOp : Type :=
  | OpObtain (h : ResponseHeader)
  | OpZeroValue
  | OpClassify (h : ResponseHeader)
  | OpRelease (h : ResponseHeader)
  | OpReadTotalBodyLength (h : ResponseHeader).

Record State : Type := mkState {
  conn : Conn;
  rw_Reader : Reader;
  rw_Writer : Writer;
  metrics : Metrics;
  resHeadPool : list ResponseHeader;
  header_ops : list HeaderOp
}.

(** Stateful code: a function from the state to a result and the next state. *)
Definition M (A : Type) : Type := State → A * State.

Definition ret {A : Type} (a : A) : M A := λ s, (a, s).
Definition bind {A B : Type} (m : M A) (f : A → M B) : M B :=
  λ s, let (a, s') := m s in f a s'.

Notation "'do' x <- m ; k" := (bind m (λ x, k))
  (at level 10, x pattern, m at level 100, k at level 200).
Notation "'do_' m ; k" := (bind m (λ _, k))
  (at level 10, m at level 100, k at level 200).

Definition set_conn (c : Conn) (s : State) : State :=
  mkState c (rw_Reader s) (rw_Writer s) (metrics s) (resHeadPool s) (header_ops s).
Definition set_Reader (r : Reader) (s : State) : State :=
  mkState (conn s) r (rw_Writer s) (metrics s) (resHeadPool s) (header_ops s).
Definition set_Writer (w : Writer) (s : State) : State :=
  mkState (conn s) (rw_Reader s) w (metrics s) (resHeadPool s) (header_ops s).
Definition set_metrics (m : Metrics) (s : State) : State :=
  mkState (conn s) (rw_Reader s) (rw_Writer s) m (resHeadPool s) (header_ops s).

(** [metrics.IncCounterBy], on 64-bit counters. *)
Definition IncBytesWrittenLocal (n : N) : M unit := λ s,
  (tt, set_metrics (mkMetrics ((MetricBytesWrittenLocal (metrics s) + n) mod 2 ^ 64)
                              (MetricBytesReadLocal (metrics s))) s).
Definition IncBytesReadLocal (n : N) : M unit := λ s,
  (tt, set_metrics (mkMetrics (MetricBytesWrittenLocal (metrics s))
                              ((MetricBytesReadLocal (metrics s) + n) mod 2 ^ 64)) s).

Definition log_header_op (o : HeaderOp) : M unit := λ s,
  (tt, mkState (conn s) (rw_Reader s) (rw_Writer s) (metrics s) (resHeadPool s)
               (header_ops s ++ [o])).

(** *** bufio.Writer *)

(** Everything handed to the writer so far: what the connection took,
    then what is still buffered. *)
Definition handed (s : State) : list byte := wire (conn s) ++ w_buf (rw_Writer s).

(** The parts of the state the writer never touches. *)
Definition same_reads (s s' : State) : Prop :=
  rw_Reader s' = rw_Reader s ∧ resHeadPool s' = resHeadPool s ∧ header_ops s' = header_ops s.

Definition Buffered (b : Writer) : nat := length (w_buf b).
Definition Available (b : Writer) : nat := (w_size b - length (w_buf b))%nat.

(** [b.Flush()] *)
Definition Writer_Flush : M (option error) := λ s,
  let b := rw_Writer s in
  match w_err b with
  | Some e => (Some e, s)
  | None =>
      if (Buffered b =? 0)%nat then (None, s)
      else
        let '((n, err), c') := conn_Write (w_buf b) (conn s) in
        let err := match err with
                   | None => if (n <? Buffered b)%nat then Some ErrShortWrite else None
                   | Some e => Some e
                   end in
        match err with
        | Some e =>
            (Some e, set_Writer (mkWriter (Some e) (drop n (w_buf b)) (w_size b)) (set_conn c' s))
        | None =>
            (None, set_Writer (mkWriter None [] (w_size b)) (set_conn c' s))
        end
  end.

(** The loop of [b.Write(p)]: while [p] does not fit and no error is
    pending, either hand [p] to the connection (empty buffer) or top the
    buffer up and flush it.  Returns what is left of [p] and the count
    written so far. *)
Fixpoint Writer_Write_loop (fuel : nat) (p : list byte) (nn : nat) : M (list byte * nat) :=
  λ s,
  match fuel with
  | O => ((p, nn), s)
  | S fuel' =>
      let b := rw_Writer s in
      if (Available b <? length p)%nat && bool_decide (w_err b = None) then
        if (Buffered b =? 0)%nat then
          let '((n, err), c') := conn_Write p (conn s) in
          Writer_Write_loop fuel' (drop n p) (nn + n)%nat
            (set_Writer (mkWriter err (w_buf b) (w_size b)) (set_conn c' s))
        else
          let n := Available b in
          let s1 := set_Writer (mkWriter (w_err b) (w_buf b ++ take n p) (w_size b)) s in
          let (_, s2) := Writer_Flush s1 in
          Writer_Write_loop fuel' (drop n p) (nn + n)%nat s2
      else ((p, nn), s)
  end.

(** [b.Write(p)].  The loop needs at most two rounds (see
    [Writer_Write_loop_fuel]). *)
Definition Writer_Write (p : list byte) : M (nat * option error) :=
  do (p', nn) <- Writer_Write_loop 2 p 0;
  λ s,
    let b := rw_Writer s in
    match w_err b with
    | Some e => ((nn, Some e), s)
    | None =>
        ((nn + length p', None)%nat,
         set_Writer (mkWriter None (w_buf b ++ p') (w_size b)) s)
    end.

(** [bufio]'s default buffer size. *)
Definition defaultBufSize : nat := 4096.

(** [NewHandler]: fresh buffered views of the default size over the
    connection.  [inbound] is the connection's read half. *)
Definition NewHandler (c : Conn) (inbound : Reader) : State :=
  mkState c inbound (mkWriter None [] defaultBufSize) (mkMetrics 0 0) [] [].

(** [rw.Discard(n)] on the handler's reader. *)
Definition rw_Discard (n : Z) : M (N * option error) := λ s,
  let '(res, r') := Reader_Discard n (rw_Reader s) in (res, set_Reader r' s).

(** ** The codec and the package's other helpers *)

(** Package [binprot] is outside the handler's file.  The handler uses its
    encoder (one byte string per command), its header reader, which
    consumes bytes from the reader and yields a header or an I/O error, and
    its classification of a header's status into an error or [nil]. *)
Class Binprot : Type := {
  encode : Command → list byte;
  ReadResponseHeader : Reader → (ResponseHeader * option error) * Reader;
  DecodeError : ResponseHeader → option error
}.

(** [getLocal] and [simpleCmdLocal] live in another file of package [std]:
    they flush the command and read one response from the [ReadWriter].
    [getLocal rw readExp] returns the data, the flags, the expiration time
    and an error. *)
Class StdLocal : Type := {
  getLocal : bool → M (option (list byte) * N * N * option error);
  simpleCmdLocal : M (option error)
}.

Section Handler.
Context {BP : Binprot} {SL : StdLocal}.

(** Modelled from the spec: each [binprot.Write*Cmd] writes the encoded
    command to the [io.Writer] it is given, here the handler's
    [bufio.Writer], and returns the write's error. *)
Definition WriteCmd (c : Command) : M (option error) :=
  do (_, err) <- Writer_Write (encode c);
  ret err.

Definition WriteSetCmd key flags exptime dataSize opaque := WriteCmd (CmdSet key flags exptime dataSize opaque).
Definition WriteAddCmd key flags exptime dataSize opaque := WriteCmd (CmdAdd key flags exptime dataSize opaque).
Definition WriteReplaceCmd key flags exptime dataSize opaque := WriteCmd (CmdReplace key flags exptime dataSize opaque).
Definition WriteAppendCmd key flags exptime dataSize opaque := WriteCmd (CmdAppend key flags exptime dataSize opaque).
Definition WritePrependCmd key flags exptime dataSize opaque := WriteCmd (CmdPrepend key flags exptime dataSize opaque).
Definition WriteGetCmd key opaque := WriteCmd (CmdGet key opaque).
Definition WriteGetECmd key opaque := WriteCmd (CmdGetE key opaque).
Definition WriteGATCmd key exptime opaque := WriteCmd (CmdGAT key exptime opaque).
Definition WriteDeleteCmd key opaque := WriteCmd (CmdDelete key opaque).
Definition WriteTouchCmd key exptime opaque := WriteCmd (CmdTouch key exptime opaque).

(** Modelled from the spec: [binprot.PutResponseHeader] hands the header,
    passed by value, back to the pool. *)
Definition PutResponseHeader (h : ResponseHeader) : M unit := λ s,
  (tt, mkState (conn s) (rw_Reader s) (rw_Writer s) (metrics s)
               (h :: resHeadPool s) (header_ops s ++ [OpRelease h])).

(** [binprot.ReadResponseHeader(r)] on the handler's reader. *)
Definition rw_ReadResponseHeader : M (ResponseHeader * option error) := λ s,
  let '((h, err), r') := ReadResponseHeader (rw_Reader s) in
  match err with
  | Some e => ((h, err), set_Reader r' s)
  | None => ((h, err), (log_header_op (OpObtain h) (set_Reader r' s)).2)
  end.

(** [readResponseHeader] *)
Definition readResponseHeader : M (ResponseHeader * option error) :=
  do (resHeader, err) <- rw_ReadResponseHeader;
  match err with
  | Some e =>
      do_ log_header_op OpZeroValue;
      ret (emptyResHeader, Some e)
  | None =>
      do_ log_header_op (OpClassify resHeader);
      match DecodeError resHeader with
      | Some e =>
          do_ PutResponseHeader resHeader;
          ret (resHeader, Some e)
      | None =>
          do_ PutResponseHeader resHeader;
          ret (resHeader, None)
      end
  end.

(** [Handler.Close] *)
Definition Handler_Close : M (option error) := λ s,
  let (err, c') := conn_Close (conn s) in (err, set_conn c' s).

(** [Handler.handleSetCommon].  The result of [h.rw.Write] is dropped, as
    in the source.  [int(resHeader.TotalBodyLength)] is the same number:
    [int] has 64 bits. *)
Definition handleSetCommon (cmd : SetRequest) : M (option error) :=
  do _ <- Writer_Write (set_Data cmd);
  do_ IncBytesWrittenLocal (len (set_Data cmd));
  do err <- Writer_Flush;
  match err with
  | Some e => ret (Some e)
  | None =>
      do (resHeader, err) <- readResponseHeader;
      match err with
      | Some e =>
          do_ log_header_op (OpReadTotalBodyLength resHeader);
          do (n, ioerr) <- rw_Discard (Z.of_N (TotalBodyLength resHeader));
          do_ IncBytesReadLocal n;
          match ioerr with
          | Some io => ret (Some io)
          | None => ret (Some e)
          end
      | None => ret None
      end
  end.

(** [Handler.Set] *)
Definition Handler_Set (cmd : SetRequest) : M (option error) :=
  do err <- WriteSetCmd (set_Key cmd) (set_Flags cmd) (set_Exptime cmd) (uint32 (len (set_Data cmd))) 0;
  match err with
  | Some e => ret (Some e)
  | None => handleSetCommon cmd
  end.

(** [Handler.Add] *)
Definition Handler_Add (cmd : SetRequest) : M (option error) :=
  do err <- WriteAddCmd (set_Key cmd) (set_Flags cmd) (set_Exptime cmd) (uint32 (len (set_Data cmd))) 0;
  match err with
  | Some e => ret (Some e)
  | None => handleSetCommon cmd
  end.

(** [Handler.Replace] *)
Definition Handler_Replace (cmd : SetRequest) : M (option error) :=
  do err <- WriteReplaceCmd (set_Key cmd) (set_Flags cmd) (set_Exptime cmd) (uint32 (len (set_Data cmd))) 0;
  match err with
  | Some e => ret (Some e)
  | None => handleSetCommon cmd
  end.

(** [Handler.Append] *)
Definition Handler_Append (cmd : SetRequest) : M (option error) :=
  do err <- WriteAppendCmd (set_Key cmd) (set_Flags cmd) (set_Exptime cmd) (uint32 (len (set_Data cmd))) 0;
  match err with
  | Some e => ret (Some e)
  | None => handleSetCommon cmd
  end.

(** [Handler.Prepend] *)
Definition Handler_Prepend (cmd : SetRequest) : M (option error) :=
  do err <- WritePrependCmd (set_Key cmd) (set_Flags cmd) (set_Exptime cmd) (uint32 (len (set_Data cmd))) 0;
  match err with
  | Some e => ret (Some e)
  | None => handleSetCommon cmd
  end.

(** *** The batched pipelines *)

(** What the background task does on its two channels, in order: a send
    on [dataOut], a send on [errorOut], and the two deferred closes. *)
Inductive ChanEvent (R : Type) : Type :=
  | DataSend (r : R)
  | ErrorSend (e : error)
  | DataClose
  | ErrorClose.
#[global] Arguments DataSend {R} r.
#[global] Arguments ErrorSend {R} e.
#[global] Arguments DataClose {R}.
#[global] Arguments ErrorClose {R}.

(** How the task ends: it returns, or an index expression panics. *)
Inductive Exit : Type := Returned | Panicked.

(** The [for idx, key := range cmd.Keys] loop of [realHandleGet], from
    index [idx] on. *)
Fixpoint realHandleGet_loop (cmd : GetRequest) (idx : nat) (keys : list (list byte))
  : M (list (ChanEvent GetResponse) * Exit) :=
  match keys with
  | [] => ret ([], Returned)
  | key :: keys' =>
      do err <- WriteGetCmd key 0;
      match err with
      | Some e => ret ([ErrorSend e], Returned)
      | None =>
          do (data, flags, _, err) <- getLocal false;
          match err with
          | Some e =>
              if decide (e = ErrKeyNotFound) then
                match Quiet cmd !! idx, Opaques cmd !! idx with
                | Some q, Some o =>
                    do (evs, x) <- realHandleGet_loop cmd (S idx) keys';
                    ret (DataSend (mkGetResponse true q o flags key None) :: evs, x)
                | _, _ => ret ([], Panicked)
                end
              else ret ([ErrorSend e], Returned)
          | None =>
              match Quiet cmd !! idx, Opaques cmd !! idx with
              | Some q, Some o =>
                  do (evs, x) <- realHandleGet_loop cmd (S idx) keys';
                  ret (DataSend (mkGetResponse false q o flags key data) :: evs, x)
              | _, _ => ret ([], Panicked)
              end
          end
      end
  end.

(** [realHandleGet]: the loop, then the deferred [close(dataOut)] and
    [close(errorOut)], which also run when the loop panics. *)
Definition realHandleGet (cmd : GetRequest) : M (list (ChanEvent GetResponse) * Exit) :=
  do (evs, x) <- realHandleGet_loop cmd 0 (Keys cmd);
  ret (evs ++ [DataClose; ErrorClose], x).

(** [Handler.Get]: the task it starts, seen through the two channels it
    returns. *)
Definition Handler_Get (cmd : GetRequest) : M (list (ChanEvent GetResponse) * Exit) :=
  realHandleGet cmd.

(** The loop of [realHandleGetE]. *)
Fixpoint realHandleGetE_loop (cmd : GetRequest) (idx : nat) (keys : list (list byte))
  : M (list (ChanEvent GetEResponse) * Exit) :=
  match keys with
  | [] => ret ([], Returned)
  | key :: keys' =>
      do err <- WriteGetECmd key 0;
      match err with
      | Some e => ret ([ErrorSend e], Returned)
      | None =>
          do (data, flags, exp, err) <- getLocal true;
          match err with
          | Some e =>
              if decide (e = ErrKeyNotFound) then
                match Quiet cmd !! idx, Opaques cmd !! idx with
                | Some q, Some o =>
                    do (evs, x) <- realHandleGetE_loop cmd (S idx) keys';
                    ret (DataSend (mkGetEResponse true q o flags exp key None) :: evs, x)
                | _, _ => ret ([], Panicked)
                end
              else ret ([ErrorSend e], Returned)
          | None =>
              match Quiet cmd !! idx, Opaques cmd !! idx with
              | Some q, Some o =>
                  do (evs, x) <- realHandleGetE_loop cmd (S idx) keys';
                  ret (DataSend (mkGetEResponse false q o flags exp key data) :: evs, x)
              | _, _ => ret ([], Panicked)
              end
          end
      end
  end.

(** [realHandleGetE] *)
Definition realHandleGetE (cmd : GetRequest) : M (list (ChanEvent GetEResponse) * Exit) :=
  do (evs, x) <- realHandleGetE_loop cmd 0 (Keys cmd);
  ret (evs ++ [DataClose; ErrorClose], x).

(** [Handler.GetE] *)
Definition Handler_GetE (cmd : GetRequest) : M (list (ChanEvent GetEResponse) * Exit) :=
  realHandleGetE cmd.

(** *** Single-response commands *)

(** [Handler.GAT] *)
Definition Handler_GAT (cmd : GATRequest) : M (GetResponse * option error) :=
  do err <- WriteGATCmd (gat_Key cmd) (gat_Exptime cmd) 0;
  match err with
  | Some e => ret (emptyGetResponse, Some e)
  | None =>
      do (data, flags, _, err) <- getLocal false;
      match err with
      | Some e =>
          if decide (e = ErrKeyNotFound) then
            ret (mkGetResponse true false (gat_Opaque cmd) flags (gat_Key cmd) None, None)
          else ret (emptyGetResponse, Some e)
      | None =>
          ret (mkGetResponse false false (gat_Opaque cmd) flags (gat_Key cmd) data, None)
      end
  end.

(** [Handler.Delete] *)
Definition Handler_Delete (cmd : DeleteRequest) : M (option error) :=
  do err <- WriteDeleteCmd (del_Key cmd) 0;
  match err with
  | Some e => ret (Some e)
  | None => simpleCmdLocal
  end.

(** [Handler.Touch] *)
Definition Handler_Touch (cmd : TouchRequest) : M (option error) :=
  do err <- WriteTouchCmd (touch_Key cmd) (touch_Exptime cmd) 0;
  match err with
  | Some e => ret (Some e)
  | None => simpleCmdLocal
  end.

(** ** Vocabulary for the properties *)

(** The five mutation commands, the command each one encodes, and its
    handler method. *)
Inductive Mutation : Type := MSet | MAdd | MReplace | MAppend | MPrepend.

Definition mutation_cmd (op : Mutation) (cmd : SetRequest) : Command :=
  let size := uint32 (len (set_Data cmd)) in
  match op with
  | MSet => CmdSet (set_Key cmd) (set_Flags cmd) (set_Exptime cmd) size 0
  | MAdd => CmdAdd (set_Key cmd) (set_Flags cmd) (set_Exptime cmd) size 0
  | MReplace => CmdReplace (set_Key cmd) (set_Flags cmd) (set_Exptime cmd) size 0
  | MAppend => CmdAppend (set_Key cmd) (set_Flags cmd) (set_Exptime cmd) size 0
  | MPrepend => CmdPrepend (set_Key cmd) (set_Flags cmd) (set_Exptime cmd) size 0
  end.

Definition mutate (op : Mutation) : SetRequest → M (option error) :=
  match op with
  | MSet => Handler_Set
  | MAdd => Handler_Add
  | MReplace => Handler_Replace
  | MAppend => Handler_Append
  | MPrepend => Handler_Prepend
  end.

(** The request half of a mutation: the command header, the payload, the
    flush.  Its result is the error that stops the method before it reads
    the response, if any. *)
Definition send_mutation (op : Mutation) (cmd : SetRequest) : M (option error) :=
  do err <- WriteCmd (mutation_cmd op cmd);
  match err with
  | Some e => ret (Some e)
  | None =>
      do _ <- Writer_Write (set_Data cmd);
      do_ IncBytesWrittenLocal (len (set_Data cmd));
      Writer_Flush
  end.

(** The response half of [handleSetCommon]. *)
Definition receive_mutation : M (option error) :=
  do (resHeader, err) <- readResponseHeader;
  match err with
  | Some e =>
      do_ log_header_op (OpReadTotalBodyLength resHeader);
      do (n, ioerr) <- rw_Discard (Z.of_N (TotalBodyLength resHeader));
      do_ IncBytesReadLocal n;
      match ioerr with
      | Some io => ret (Some io)
      | None => ret (Some e)
      end
  | None => ret None
  end.

(** What one key's read comes to in a batch: the command could not be
    written, the key is absent, the key is there, or the read failed. *)
Inductive Outcome : Type :=
  | WriteFailed (e : error)
  | Missed (flags exp : N)
  | Found (data : option (list byte)) (flags exp : N)
  | ReadFailed (e : error).

(** The error that ends the batch, if the outcome is one. *)
Definition fatal (o : Outcome) : option error :=
  match o with
  | WriteFailed e | ReadFailed e => Some e
  | Missed _ _ | Found _ _ _ => None
  end.

Definition is_miss (o : Outcome) : bool :=
  match o with Missed _ _ => true | _ => false end.

Definition single_read (write : M (option error)) (readExp : bool) : M Outcome :=
  do err <- write;
  match err with
  | Some e => ret (WriteFailed e)
  | None =>
      do (data, flags, exp, err) <- getLocal readExp;
      match err with
      | Some e =>
          if decide (e = ErrKeyNotFound) then ret (Missed flags exp) else ret (ReadFailed e)
      | None => ret (Found data flags exp)
      end
  end.

Definition get_read (key : list byte) : M Outcome := single_read (WriteGetCmd key 0) false.
Definition gete_read (key : list byte) : M Outcome := single_read (WriteGetECmd key 0) true.

(** The reads of several keys, one after the other on the same state. *)
Fixpoint reads (read : list byte → M Outcome) (keys : list (list byte)) : M (list Outcome) :=
  match keys with
  | [] => ret []
  | key :: keys' =>
      do o <- read key;
      do os <- reads read keys';
      ret (o :: os)
  end.

(** The response sent for a key that was found or missed. *)
Definition get_response (q : bool) (o : N) (key : list byte) (out : Outcome) : GetResponse :=
  match out with
  | Missed flags _ => mkGetResponse true q o flags key None
  | Found data flags _ => mkGetResponse false q o flags key data
  | _ => emptyGetResponse
  end.

Definition gete_response (q : bool) (o : N) (key : list byte) (out : Outcome) : GetEResponse :=
  match out with
  | Missed flags exp => mkGetEResponse true q o flags exp key None
  | Found data flags exp => mkGetEResponse false q o flags exp key data
  | _ => mkGetEResponse false false 0 0 0 [] None
  end.

(** The shape the two loops share: read the key; stop on a fatal outcome;
    otherwise index the two parallel slices and send the response. *)
Fixpoint batch_loop {R : Type} (read : list byte → M Outcome)
    (mk : bool → N → list byte → Outcome → R)
    (cmd : GetRequest) (idx : nat) (keys : list (list byte))
  : M (list (ChanEvent R) * Exit) :=
  match keys with
  | [] => ret ([], Returned)
  | key :: keys' =>
      do out <- read key;
      match fatal out with
      | Some e => ret ([ErrorSend e], Returned)
      | None =>
          match Quiet cmd !! idx, Opaques cmd !! idx with
          | Some q, Some o =>
              do (evs, x) <- batch_loop read mk cmd (S idx) keys';
              ret (DataSend (mk q o key out) :: evs, x)
          | _, _ => ret ([], Panicked)
          end
      end
  end.

(** The responses for keys read with the given outcomes, from index [idx]. *)
Fixpoint responses {R : Type} (mk : bool → N → list byte → Outcome → R)
    (cmd : GetRequest) (idx : nat) (keys : list (list byte)) (outs : list Outcome) : list R :=
  match keys, outs with
  | key :: keys', out :: outs' =>
      mk (default false (Quiet cmd !! idx)) (default 0 (Opaques cmd !! idx)) key out
        :: responses mk cmd (S idx) keys' outs'
  | _, _ => []
  end.

(** The events of a finished batch. *)
Definition events {R : Type} (res : list (ChanEvent R) * Exit * State) : list (ChanEvent R) := res.1.1.
Definition exit {R : Type} (res : list (ChanEvent R) * Exit * State) : Exit := res.1.2.

(** Whether a header is used after its release: some classification or
    field read comes after a release with no new header in between.
    [released] tells whether the header at hand has been released. *)
Fixpoint use_after_release (released : bool) (ops : list HeaderOp) : bool :=
  match ops with
  | [] => false
  | OpObtain _ :: ops' => use_after_release false ops'
  | OpZeroValue :: ops' => use_after_release false ops'
  | OpRelease _ :: ops' => use_after_release true ops'
  | OpClassify _ :: ops' => released || use_after_release released ops'
  | OpReadTotalBodyLength _ :: ops' => released || use_after_release released ops'
  end.

(** What can be done to the writer once the connection is closed. *)
Inductive WriterCall : Type :=
  | CallWrite (p : list byte)
  | CallFlush.

Fixpoint writer_calls (cs : list WriterCall) : M unit :=
  match cs with
  | [] => ret tt
  | CallWrite p :: cs' => do _ <- Writer_Write p; writer_calls cs'
  | CallFlush :: cs' => do _ <- Writer_Flush; writer_calls cs'
  end.

End Handler.

(** ** A concrete server side, for running the handler *)

(** The memcached binary framing: 24-byte headers, big-endian fields,
    request magic 0x80 and response magic 0x81.  It instantiates the codec
    and the two package helpers so that the handler can be evaluated on
    concrete byte streams. *)
Module Memcached.

Definition byte_of (n : N) : byte := default Byte.x00 (Byte.of_N (n mod 256)).
Definition be16 (n : N) : list byte := [byte_of (n / 2 ^ 8); byte_of n].
Definition be32 (n : N) : list byte :=
  [byte_of (n / 2 ^ 24); byte_of (n / 2 ^ 16); byte_of (n / 2 ^ 8); byte_of n].
Definition be64 (n : N) : list byte := be32 (n / 2 ^ 32) ++ be32 n.
Definition be_decode (bs : list byte) : N :=
  fold_left (λ acc b, acc * 256 + Byte.to_N b) bs 0.

Definition req_header (opcode : N) (key : list byte) (extras total opaque : N) : list byte :=
  [Byte.x80; byte_of opcode] ++ be16 (len key) ++ [byte_of extras; Byte.x00] ++ be16 0
    ++ be32 total ++ be32 opaque ++ be64 0.

Definition store_cmd (opcode : N) (key : list byte) (flags exptime dataSize opaque : N) : list byte :=
  req_header opcode key 8 (len key + 8 + dataSize) opaque ++ be32 flags ++ be32 exptime ++ key.

Definition encode_command (c : Command) : list byte :=
  match c with
  | CmdSet key flags exptime dataSize opaque => store_cmd 0x01 key flags exptime dataSize opaque
  | CmdAdd key flags exptime dataSize opaque => store_cmd 0x02 key flags exptime dataSize opaque
  | CmdReplace key flags exptime dataSize opaque => store_cmd 0x03 key flags exptime dataSize opaque
  | CmdAppend key flags exptime dataSize opaque => store_cmd 0x0e key flags exptime dataSize opaque
  | CmdPrepend key flags exptime dataSize opaque => store_cmd 0x0f key flags exptime dataSize opaque
  | CmdGet key opaque => req_header 0x00 key 0 (len key) opaque ++ key
  | CmdGetE key opaque => req_header 0x40 key 0 (len key) opaque ++ key
  | CmdGAT key exptime opaque => req_header 0x1d key 4 (len key + 4) opaque ++ be32 exptime ++ key
  | CmdDelete key opaque => req_header 0x04 key 0 (len key) opaque ++ key
  | CmdTouch key exptime opaque => req_header 0x1c key 4 (len key + 4) opaque ++ be32 exptime ++ key
  end.

(** A response header as the server sends it. *)
Definition res_header (opcode extras status total opaque : N) : list byte :=
  [Byte.x81; byte_of opcode] ++ be16 0 ++ [byte_of extras; Byte.x00] ++ be16 status
    ++ be32 total ++ be32 opaque ++ be64 0.

(** [io.ReadFull] of [n] bytes. *)
Definition ReadFull (n : nat) (r : Reader) : (list byte * option error) * Reader :=
  if (n <=? length (r_stream r))%nat then
    ((take n (r_stream r), None), mkReader (drop n (r_stream r)) (r_err r))
  else ((r_stream r, Some (r_err r)), mkReader [] (r_err r)).

Definition read_response_header (r : Reader) : (ResponseHeader * option error) * Reader :=
  let '((buf, err), r') := ReadFull 24 r in
  match err with
  | Some e => ((emptyResHeader, Some e), r')
  | None =>
      if Byte.eqb (default Byte.x00 (head buf)) Byte.x81 then
        ((mkResponseHeader
            (be_decode (take 1 (drop 1 buf)))
            (be_decode (take 2 (drop 2 buf)))
            (be_decode (take 1 (drop 4 buf)))
            (be_decode (take 2 (drop 6 buf)))
            (be_decode (take 4 (drop 8 buf)))
            (be_decode (take 4 (drop 12 buf)))
            (be_decode (take 8 (drop 16 buf))), None), r')
      else ((emptyResHeader, Some (ErrOther "bad magic")), r')
  end.

Definition StatusKeyEnoent : N := 1.
Definition StatusKeyExists : N := 2.

Definition decode_error (h : ResponseHeader) : option error :=
  if Status h =? 0 then None
  else if Status h =? StatusKeyEnoent then Some ErrKeyNotFound
  else if Status h =? StatusKeyExists then Some ErrKeyExists
  else Some (ErrOther "bad status").

Definition codec : Binprot := Build_Binprot encode_command read_response_header decode_error.

Definition rw_ReadFull (n : nat) : M (list byte * option error) := λ s,
  let '(res, r') := ReadFull n (rw_Reader s) in (res, set_Reader r' s).

(** Modelled from the spec: [getLocal], the single-key read of its
    section 4.2: flush, read the header; on "not found" discard the body
    and report the miss; on success read the extras (flags, and the
    expiration time when [readExp]) and then the data. *)
Definition get_local (readExp : bool)
  : M (option (list byte) * N * N * option error) :=
  do err <- Writer_Flush;
  match err with
  | Some e => ret (None, 0, 0, Some e)
  | None =>
      do (resHeader, err) <- readResponseHeader (BP := codec);
      match err with
      | Some e =>
          if decide (e = ErrKeyNotFound) then
            do (n, ioerr) <- rw_Discard (Z.of_N (TotalBodyLength resHeader));
            do_ IncBytesReadLocal n;
            match ioerr with
            | Some io => ret (None, 0, 0, Some io)
            | None => ret (None, 0, 0, Some e)
            end
          else ret (None, 0, 0, Some e)
      | None =>
          do (extras, err) <- rw_ReadFull (N.to_nat (ExtraLength resHeader));
          match err with
          | Some e => ret (None, 0, 0, Some e)
          | None =>
              do (data, err) <- rw_ReadFull (N.to_nat (TotalBodyLength resHeader - ExtraLength resHeader));
              match err with
              | Some e => ret (None, 0, 0, Some e)
              | None =>
                  ret (Some data, be_decode (take 4 extras),
                       if readExp then be_decode (take 4 (drop 4 extras)) else 0, None)
              end
          end
      end
  end.

(** Modelled from the spec: [simpleCmdLocal], the Delete and Touch path of
    its section 4.4: flush, read the header, discard the body. *)
Definition simple_cmd_local : M (option error) :=
  do err <- Writer_Flush;
  match err with
  | Some e => ret (Some e)
  | None =>
      do (resHeader, err) <- readResponseHeader (BP := codec);
      do (n, ioerr) <- rw_Discard (Z.of_N (TotalBodyLength resHeader));
      do_ IncBytesReadLocal n;
      match ioerr with
      | Some io => ret (Some io)
      | None => ret err
      end
  end.

Definition local : StdLocal := Build_StdLocal get_local simple_cmd_local.

(** A fresh handler over a healthy connection whose peer will send
    [inbound] and then end the stream. *)
Definition fresh (inbound : list byte) : State :=
  NewHandler (mkConn [] None false None) (mkReader inbound EOF).

Definition bytes (s : string) : list byte := String.list_byte_of_string s.

(** Requests and server answers used in the examples below. *)
Definition store_k1 : SetRequest := mkSetRequest (bytes "k1") 0 0 (bytes "v1").

(** The server stored the value. *)
Definition answer_stored : State := fresh (res_header 0x01 0 0 0 0).

(** The key exists: status 2 with a six-byte body, then the next response. *)
Definition answer_exists : State :=
  fresh (res_header 0x02 0 StatusKeyExists 6 0 ++ bytes "Exists" ++ res_header 0x01 0 0 0 0).

(** The same answer cut off in the middle of its body. *)
Definition answer_exists_cut : State :=
  fresh (res_header 0x02 0 StatusKeyExists 6 0 ++ bytes "Exi").

Definition exists_header : ResponseHeader := mkResponseHeader 0x02 0 0 StatusKeyExists 6 0 0.

Definition get_ab : GetRequest :=
  mkGetRequest [bytes "a"; bytes "b"] [7; 8] [true; false].

(** A request whose quiet flags and opaque tokens are missing. *)
Definition get_a_bare : GetRequest := mkGetRequest [bytes "a"] [] [].

Definition not_found : list byte :=
  res_header 0x00 0 StatusKeyEnoent 9 0 ++ bytes "Not found".

(** Status 0x82: the server is out of memory. *)
Definition out_of_memory : list byte := res_header 0x00 0 0x82 0 0.

Definition touch_a : GATRequest := mkGATRequest (bytes "a") 60 9.

(** The key is there: flags 5, value "vb". *)
Definition found_vb : list byte :=
  res_header 0x00 4 0 6 0 ++ be32 5 ++ bytes "vb".

(** A handler whose writer has met the error [e] before. *)
Definition broken (e : error) : State :=
  mkState (mkConn [] None false None) (mkReader [] EOF)
          (mkWriter (Some e) [] defaultBufSize) (mkMetrics 0 0) [] [].

(** A fresh handler whose connection takes [n] more bytes and then breaks. *)
Definition choked (n : nat) (inbound : list byte) : State :=
  NewHandler (mkConn [] (Some (n, ErrOther "broken pipe")) false None)
             (mkReader inbound EOF).

Definition store_k2 : SetRequest := mkSetRequest (bytes "k2") 1 0 (bytes "other").

End Memcached.

(** * Properties *)

(** ** The connection and the buffered writer *)

Lemma conn_Write_spec p c :
  wire (conn_Write p c).2 = wire c ++ take (conn_Write p c).1.1 p
  ∧ ((conn_Write p c).1.2 = None → (conn_Write p c).1.1 = length p)
  ∧ closed (conn_Write p c).2 = closed c.
Proof.
  unfold conn_Write. destruct (closed c) eqn:Hc; simpl.
  - rewrite take_0, app_nil_r. by rewrite Hc.
  - destruct (wbudget c) as [[n e]|]; simpl.
    + destruct (Nat.leb_spec (length p) n); simpl.
      * by rewrite firstn_all.
      * done.
    + by rewrite firstn_all.
Qed.

Lemma conn_Write_closed p c :
  closed c = true → conn_Write p c = ((0%nat, Some ErrClosed), c).
Proof. unfold conn_Write. by intros ->. Qed.

#[local] Instance same_reads_refl : Reflexive same_reads.
Proof. by intros s. Qed.

#[local] Instance same_reads_trans : Transitive same_reads.
Proof. intros s1 s2 s3 (?&?&?) (?&?&?). repeat split; congruence. Qed.

(** A flush reports the writer's sticky error; when it reports none,
    everything handed to the writer is on the wire. *)
Lemma Writer_Flush_spec s :
  w_err (rw_Writer (Writer_Flush s).2) = (Writer_Flush s).1
  ∧ ((Writer_Flush s).1 = None →
       w_err (rw_Writer s) = None
       ∧ wire (conn (Writer_Flush s).2) = handed s
       ∧ w_buf (rw_Writer (Writer_Flush s).2) = [])
  ∧ same_reads s (Writer_Flush s).2
  ∧ metrics (Writer_Flush s).2 = metrics s
  ∧ closed (conn (Writer_Flush s).2) = closed (conn s)
  ∧ w_size (rw_Writer (Writer_Flush s).2) = w_size (rw_Writer s).
Proof.
  unfold Writer_Flush, handed, Buffered.
  destruct (w_err (rw_Writer s)) as [e|] eqn:He; simpl.
  { rewrite He. repeat split; done. }
  destruct (Nat.eqb_spec (length (w_buf (rw_Writer s))) 0) as [H0|H0]; simpl.
  { rewrite He. apply nil_length_inv in H0. rewrite H0, app_nil_r. repeat split; done. }
  pose proof (conn_Write_spec (w_buf (rw_Writer s)) (conn s)) as (Hw & Hn & Hc).
  destruct (conn_Write (w_buf (rw_Writer s)) (conn s)) as [[n [e|]] c'] eqn:Hcw; simpl in *.
  { repeat split; done. }
  rewrite Hn by done. rewrite Nat.ltb_irrefl. simpl.
  rewrite Hw, Hn, firstn_all by done. repeat split; done.
Qed.

Lemma Writer_Flush_closed s :
  closed (conn s) = true → conn (Writer_Flush s).2 = conn s.
Proof.
  intros Hc. unfold Writer_Flush.
  destruct (w_err (rw_Writer s)); [done|].
  destruct (Buffered (rw_Writer s) =? 0)%nat; [done|].
  rewrite conn_Write_closed by done. done.
Qed.

(** The loop of [Write] loses nothing: while no error is pending, what
    was handed to the writer plus what is left of [p] is what was handed
    before plus [p]. *)
Lemma Writer_Write_loop_spec fuel : ∀ p nn s,
  (w_err (rw_Writer (Writer_Write_loop fuel p nn s).2) = None →
     w_err (rw_Writer s) = None
     ∧ handed (Writer_Write_loop fuel p nn s).2 ++ (Writer_Write_loop fuel p nn s).1.1
       = handed s ++ p)
  ∧ same_reads s (Writer_Write_loop fuel p nn s).2
  ∧ metrics (Writer_Write_loop fuel p nn s).2 = metrics s
  ∧ closed (conn (Writer_Write_loop fuel p nn s).2) = closed (conn s)
  ∧ w_size (rw_Writer (Writer_Write_loop fuel p nn s).2) = w_size (rw_Writer s).
Proof.
  induction fuel as [|fuel IH]; intros p nn s; simpl.
  { repeat split; done. }
  destruct ((Available (rw_Writer s) <? length p)%nat
            && bool_decide (w_err (rw_Writer s) = None)) eqn:Hcond; simpl;
    [|repeat split; done].
  apply andb_prop in Hcond as [_ Herr%bool_decide_eq_true].
  destruct (Nat.eqb_spec (Buffered (rw_Writer s)) 0) as [Hb|Hb].
  - pose proof (conn_Write_spec p (conn s)) as (Hw & Hn & Hc).
    destruct (conn_Write p (conn s)) as [[n err] c'] eqn:Hcw; simpl in *.
    match goal with |- context [Writer_Write_loop fuel ?q ?m ?t] =>
      specialize (IH q m t); destruct (Writer_Write_loop fuel q m t) as [[p' nn'] s'] eqn:Hl
    end.
    unfold same_reads in *. simpl in *. destruct IH as (IH1 & (?&?&?) & ? & ? & ?).
    split; [|repeat split; congruence].
    intros Hfin. destruct (IH1 Hfin) as [-> Hh]. split; [done|].
    rewrite Hh. unfold handed; simpl. rewrite Hw, Hn by done.
    apply nil_length_inv in Hb. rewrite Hb, !app_nil_r, firstn_all, skipn_all. by rewrite app_nil_r.
  - set (s1 := set_Writer _ s).
    pose proof (Writer_Flush_spec s1) as (Hf1 & Hf2 & (?&?&?) & ? & ? & ?).
    destruct (Writer_Flush s1) as [ferr s2] eqn:Hfl; simpl in *.
    specialize (IH (drop (Available (rw_Writer s)) p) (nn + Available (rw_Writer s))%nat s2).
    destruct (Writer_Write_loop fuel _ _ s2) as [[p' nn'] s'] eqn:Hl.
    unfold same_reads in *. simpl in *.
    destruct IH as (IH1 & (?&?&?) & ? & ? & ?).
    split; [|repeat split; congruence].
    intros Hfin. destruct (IH1 Hfin) as [He2 Hh]. split; [done|].
    rewrite Hh. rewrite He2 in Hf1. destruct (Hf2 (eq_sym Hf1)) as (_ & Hw2 & Hb2).
    unfold handed in *. rewrite Hw2, Hb2, app_nil_r. simpl.
    rewrite <- !app_assoc. by rewrite take_drop.
Qed.

(** Two rounds are all the loop ever takes: more fuel changes nothing. *)
Lemma Writer_Write_loop_fuel k p nn s :
  Writer_Write_loop (2 + k) p nn s = Writer_Write_loop 2 p nn s.
Proof.
  assert (Hdirect : ∀ fuel q m t,
    Buffered (rw_Writer t) = 0%nat →
    Writer_Write_loop (S fuel) q m t = Writer_Write_loop 1 q m t).
  { intros fuel q m t Hb. simpl.
    destruct ((Available (rw_Writer t) <? length q)%nat
              && bool_decide (w_err (rw_Writer t) = None)); [|done].
    rewrite Hb. simpl.
    pose proof (conn_Write_spec q (conn t)) as (_ & Hn & _).
    destruct (conn_Write q (conn t)) as [[n err] c']; simpl in *.
    destruct fuel as [|fuel]; [done|]. simpl.
    destruct err as [e|]; simpl.
    - by rewrite andb_false_r.
    - rewrite Hn, skipn_all by done. simpl.
      by destruct (Available (rw_Writer t)). }
  change (2 + k)%nat with (S (S k)).
  cbn [Writer_Write_loop].
  destruct ((Available (rw_Writer s) <? length p)%nat
            && bool_decide (w_err (rw_Writer s) = None)); [|done].
  destruct (Nat.eqb_spec (Buffered (rw_Writer s)) 0) as [Hb|Hb].
  - pose proof (conn_Write_spec p (conn s)) as (_ & Hn & _).
    destruct (conn_Write p (conn s)) as [[n err] c']; simpl in *.
    destruct err as [e|]; simpl.
    + by rewrite !andb_false_r.
    + rewrite Hn, skipn_all by done. simpl.
      by destruct (w_size (rw_Writer s) - length (w_buf (rw_Writer s)))%nat.
  - set (s1 := set_Writer _ s).
    pose proof (Writer_Flush_spec s1) as (Hf1 & Hf2 & _).
    destruct (Writer_Flush s1) as [ferr s2] eqn:Hfl; simpl in *.
    destruct ferr as [e|].
    + destruct k; simpl; rewrite Hf1; by rewrite !andb_false_r.
    + destruct (Hf2 eq_refl) as (_ & _ & Hb2).
      apply (Hdirect k). unfold Buffered. by rewrite Hb2.
Qed.

(** [Write] reports the writer's sticky error; when it reports none,
    [p] has been handed over in full. *)
Lemma Writer_Write_spec p s :
  w_err (rw_Writer (Writer_Write p s).2) = (Writer_Write p s).1.2
  ∧ ((Writer_Write p s).1.2 = None →
       w_err (rw_Writer s) = None ∧ handed (Writer_Write p s).2 = handed s ++ p)
  ∧ same_reads s (Writer_Write p s).2
  ∧ metrics (Writer_Write p s).2 = metrics s
  ∧ closed (conn (Writer_Write p s).2) = closed (conn s)
  ∧ w_size (rw_Writer (Writer_Write p s).2) = w_size (rw_Writer s).
Proof.
  unfold Writer_Write, bind.
  pose proof (Writer_Write_loop_spec 2 p 0 s) as (Hl & (?&?&?) & ? & ? & ?).
  destruct (Writer_Write_loop 2 p 0 s) as [[p' nn] s'] eqn:Hloop; simpl in *.
  destruct (w_err (rw_Writer s')) as [e|] eqn:He; simpl.
  - rewrite He. repeat split; done.
  - destruct (Hl eq_refl) as [? Hh]. repeat split; try done.
    rewrite <- Hh. unfold handed; simpl. by rewrite app_assoc.
Qed.

Lemma Writer_Write_loop_closed fuel : ∀ p nn s,
  closed (conn s) = true → conn (Writer_Write_loop fuel p nn s).2 = conn s.
Proof.
  induction fuel as [|fuel IH]; intros p nn s Hc; simpl; [done|].
  destruct (_ && _); [|done].
  destruct (Buffered (rw_Writer s) =? 0)%nat.
  - rewrite conn_Write_closed by done. by rewrite IH.
  - set (s1 := set_Writer _ s).
    pose proof (Writer_Flush_closed s1 Hc) as Hf.
    destruct (Writer_Flush s1) as [ferr s2]; simpl in *.
    rewrite IH; [done|]. by rewrite Hf.
Qed.

Lemma Writer_Write_closed p s :
  closed (conn s) = true → conn (Writer_Write p s).2 = conn s.
Proof.
  intros Hc. unfold Writer_Write, bind.
  pose proof (Writer_Write_loop_closed 2 p 0 s Hc) as Hl.
  destruct (Writer_Write_loop 2 p 0 s) as [[p' nn] s']; simpl in *.
  by destruct (w_err (rw_Writer s')).
Qed.

Section HandlerProperties.
Context {BP : Binprot} {SL : StdLocal}.

Lemma writer_calls_closed cs : ∀ s,
  closed (conn s) = true → conn (writer_calls cs s).2 = conn s.
Proof.
  induction cs as [|[p|] cs IH]; intros s Hc; simpl; [done| |]; unfold bind.
  - pose proof (Writer_Write_closed p s Hc) as Hw.
    destruct (Writer_Write p s) as [r s1]; simpl in *.
    rewrite IH; [done|]. by rewrite Hw.
  - pose proof (Writer_Flush_closed s Hc) as Hf.
    destruct (Writer_Flush s) as [r s1]; simpl in *.
    rewrite IH; [done|]. by rewrite Hf.
Qed.

(** ** The mutation path *)

(** Every mutation method is its request half followed, when that did
    not fail, by the response half. *)
Lemma mutate_phases op cmd s :
  mutate op cmd s =
  (do err <- send_mutation op cmd;
   match err with
   | Some e => ret (Some e)
   | None => receive_mutation
   end) s.
Proof.
  destruct op; simpl;
    unfold Handler_Set, Handler_Add, Handler_Replace, Handler_Append, Handler_Prepend,
      WriteSetCmd, WriteAddCmd, WriteReplaceCmd, WriteAppendCmd, WritePrependCmd,
      send_mutation, handleSetCommon, receive_mutation, mutation_cmd, bind, ret;
    (destruct (WriteCmd _ s) as [[e|] s1]; [done|]);
    (destruct (Writer_Write _ s1) as [r s2]);
    (destruct (IncBytesWrittenLocal _ s2) as [[] s3]);
    (destruct (Writer_Flush s3) as [[e|] s4]; done).
Qed.

Lemma WriteCmd_spec c s :
  w_err (rw_Writer (WriteCmd c s).2) = (WriteCmd c s).1
  ∧ ((WriteCmd c s).1 = None →
       w_err (rw_Writer s) = None ∧ handed (WriteCmd c s).2 = handed s ++ encode c)
  ∧ same_reads s (WriteCmd c s).2
  ∧ metrics (WriteCmd c s).2 = metrics s.
Proof.
  unfold WriteCmd, bind, ret.
  pose proof (Writer_Write_spec (encode c) s) as (? & ? & ? & ? & _).
  destruct (Writer_Write (encode c) s) as [[nn err] s']; simpl in *. done.
Qed.

(** When the request half reports no error, the connection has received
    everything handed to the writer before, then the encoded command,
    then the payload; nothing stays buffered and the reader is untouched. *)
Lemma send_mutation_spec op cmd s :
  same_reads s (send_mutation op cmd s).2
  ∧ ((send_mutation op cmd s).1 = None →
       wire (conn (send_mutation op cmd s).2)
         = handed s ++ encode (mutation_cmd op cmd) ++ set_Data cmd
       ∧ w_buf (rw_Writer (send_mutation op cmd s).2) = []
       ∧ MetricBytesReadLocal (metrics (send_mutation op cmd s).2)
         = MetricBytesReadLocal (metrics s)).
Proof.
  unfold send_mutation, bind, ret.
  pose proof (WriteCmd_spec (mutation_cmd op cmd) s) as (Hc1 & Hc2 & Hc3 & Hc4).
  destruct (WriteCmd (mutation_cmd op cmd) s) as [[e|] s1]; simpl in *; [done|].
  pose proof (Writer_Write_spec (set_Data cmd) s1) as (Hw1 & Hw2 & Hw3 & Hw4 & _).
  destruct (Writer_Write (set_Data cmd) s1) as [[nn werr] s2]; simpl in *.
  pose proof (Writer_Flush_spec (set_metrics (mkMetrics
     ((MetricBytesWrittenLocal (metrics s2) + len (set_Data cmd)) mod 2 ^ 64)
     (MetricBytesReadLocal (metrics s2))) s2)) as (Hf1 & Hf2 & Hf3 & Hf4 & _).
  destruct (Writer_Flush _) as [ferr s3]; simpl in *.
  split.
  { etrans; [exact Hc3|]. etrans; [exact Hw3|]. exact Hf3. }
  intros ->. destruct (Hf2 eq_refl) as (He2 & Hwire & Hbuf).
  rewrite He2 in Hw1. destruct (Hw2 (eq_sym Hw1)) as [_ Hh2].
  destruct (Hc2 eq_refl) as [_ Hh1].
  rewrite Hwire, Hbuf, Hf4. unfold handed in *; simpl in *.
  rewrite Hh2, Hh1, <- !app_assoc, Hw4, Hc4. done.
Qed.

Lemma Reader_Discard_ok n r :
  (Reader_Discard (Z.of_N n) r).1.2 = None →
  (N.to_nat n ≤ length (r_stream r))%nat
  ∧ (Reader_Discard (Z.of_N n) r).1.1 = n
  ∧ (Reader_Discard (Z.of_N n) r).2 = mkReader (drop (N.to_nat n) (r_stream r)) (r_err r).
Proof.
  unfold Reader_Discard.
  destruct (Z.ltb_spec (Z.of_N n) 0); [lia|].
  destruct (Z.eqb_spec (Z.of_N n) 0) as [H0|H0]; simpl.
  { intros _. assert (n = 0) as -> by lia. simpl. destruct r; repeat split; simpl; lia. }
  replace (Z.to_nat (Z.of_N n)) with (N.to_nat n) by lia.
  destruct (Nat.leb_spec (N.to_nat n) (length (r_stream r))); simpl; [|done].
  intros _. rewrite N2Z.id. done.
Qed.

Lemma Reader_Discard_failed n r io :
  (Reader_Discard (Z.of_N n) r).1.2 = Some io →
  (length (r_stream r) < N.to_nat n)%nat ∧ io = r_err r
  ∧ r_stream (Reader_Discard (Z.of_N n) r).2 = [].
Proof.
  unfold Reader_Discard.
  destruct (Z.ltb_spec (Z.of_N n) 0); [lia|].
  destruct (Z.eqb_spec (Z.of_N n) 0) as [H0|H0]; simpl; [done|].
  replace (Z.to_nat (Z.of_N n)) with (N.to_nat n) by lia.
  destruct (Nat.leb_spec (N.to_nat n) (length (r_stream r))); simpl; [done|].
  intros [= <-]. done.
Qed.

(** [readResponseHeader] on a stream that yields a header: the header is
    classified, released, and then returned with its classification. *)
Lemma readResponseHeader_decoded s hd r1 :
  ReadResponseHeader (rw_Reader s) = ((hd, None), r1) →
  readResponseHeader s =
    ((hd, DecodeError hd),
     mkState (conn s) r1 (rw_Writer s) (metrics s) (hd :: resHeadPool s)
             (header_ops s ++ [OpObtain hd; OpClassify hd; OpRelease hd])).
Proof.
  intros Hr. unfold readResponseHeader, rw_ReadResponseHeader, bind, ret. rewrite Hr.
  simpl. destruct (DecodeError hd); simpl; by rewrite <- !app_assoc.
Qed.

(** The response half on an error status: the body length read from the
    returned header is discarded; a failed discard takes precedence. *)
Lemma receive_mutation_error s hd r1 e :
  ReadResponseHeader (rw_Reader s) = ((hd, None), r1) →
  DecodeError hd = Some e →
  receive_mutation s =
    (match (Reader_Discard (Z.of_N (TotalBodyLength hd)) r1).1.2 with
     | Some io => Some io
     | None => Some e
     end,
     mkState (conn s) (Reader_Discard (Z.of_N (TotalBodyLength hd)) r1).2 (rw_Writer s)
       (mkMetrics (MetricBytesWrittenLocal (metrics s))
          ((MetricBytesReadLocal (metrics s)
            + (Reader_Discard (Z.of_N (TotalBodyLength hd)) r1).1.1) mod 2 ^ 64))
       (hd :: resHeadPool s)
       (header_ops s ++ [OpObtain hd; OpClassify hd; OpRelease hd; OpReadTotalBodyLength hd])).
Proof.
  intros Hr He. unfold receive_mutation, bind.
  rewrite (readResponseHeader_decoded s hd r1 Hr), He.
  unfold log_header_op, rw_Discard, IncBytesReadLocal, set_Reader, set_metrics, ret; simpl.
  destruct (Reader_Discard (Z.of_N (TotalBodyLength hd)) r1) as [[n [io|]] r2]; simpl;
    by rewrite <- !app_assoc.
Qed.

Lemma receive_mutation_success s hd r1 :
  ReadResponseHeader (rw_Reader s) = ((hd, None), r1) →
  DecodeError hd = None →
  receive_mutation s =
    (None,
     mkState (conn s) r1 (rw_Writer s) (metrics s) (hd :: resHeadPool s)
             (header_ops s ++ [OpObtain hd; OpClassify hd; OpRelease hd])).
Proof.
  intros Hr He. unfold receive_mutation, bind.
  by rewrite (readResponseHeader_decoded s hd r1 Hr), He.
Qed.

(** A mutation whose request went out continues with the response half
    on a state that has the caller's reader, pool and header log. *)
Lemma mutate_sent op cmd s :
  (send_mutation op cmd s).1 = None →
  mutate op cmd s = receive_mutation (send_mutation op cmd s).2.
Proof.
  intros Hs. rewrite mutate_phases. unfold bind.
  destruct (send_mutation op cmd s) as [err s1]; simpl in *. by subst.
Qed.

(** C1. For each of Set, Add, Replace, Append and Prepend: when the
    request has gone out, the response header is classified as the error
    [e], and discarding its [TotalBodyLength] bytes succeeds, the method
    returns exactly [e] and the read stream has moved forward by exactly
    [TotalBodyLength] bytes past the header. *)
Theorem mutation_error_discards_body op cmd s hd r1 e :
  (send_mutation op cmd s).1 = None →
  ReadResponseHeader (rw_Reader s) = ((hd, None), r1) →
  DecodeError hd = Some e →
  (Reader_Discard (Z.of_N (TotalBodyLength hd)) r1).1.2 = None →
  (mutate op cmd s).1 = Some e
  ∧ r_stream (rw_Reader (mutate op cmd s).2)
    = drop (N.to_nat (TotalBodyLength hd)) (r_stream r1)
  ∧ (length (r_stream (rw_Reader (mutate op cmd s).2)) + N.to_nat (TotalBodyLength hd)
     = length (r_stream r1))%nat.
Proof.
  intros Hs Hr He Hd.
  destruct (send_mutation_spec op cmd s) as [(Hrd & _ & _) _].
  rewrite (mutate_sent op cmd s Hs).
  rewrite <- Hrd in Hr. rewrite (receive_mutation_error _ hd r1 e Hr He).
  destruct (Reader_Discard_ok _ _ Hd) as (Hlen & _ & Hr2).
  rewrite Hd, Hr2. simpl. repeat split. rewrite length_drop. lia.
Qed.

(** C6. For each mutation: when the request has gone out and the
    response header is classified as an error, a failing discard of the
    body makes the method return the discard's I/O error, not the
    classified one. *)
Theorem mutation_discard_failure_wins op cmd s hd r1 e io :
  (send_mutation op cmd s).1 = None →
  ReadResponseHeader (rw_Reader s) = ((hd, None), r1) →
  DecodeError hd = Some e →
  (Reader_Discard (Z.of_N (TotalBodyLength hd)) r1).1.2 = Some io →
  (mutate op cmd s).1 = Some io ∧ io = r_err r1.
Proof.
  intros Hs Hr He Hd.
  destruct (send_mutation_spec op cmd s) as [(Hrd & _ & _) _].
  rewrite (mutate_sent op cmd s Hs).
  rewrite <- Hrd in Hr. rewrite (receive_mutation_error _ hd r1 e Hr He).
  rewrite Hd. simpl. split; [done|].
  by destruct (Reader_Discard_failed _ _ _ Hd) as (_ & -> & _).
Qed.

(** C5. For each mutation called with an empty write buffer: when the
    request has gone out and the response header is classified as
    success, the method returns no error and the connection has received
    exactly the encoded command followed by the payload. *)
Theorem mutation_success_writes_command_and_payload op cmd s hd r1 :
  w_buf (rw_Writer s) = [] →
  (send_mutation op cmd s).1 = None →
  ReadResponseHeader (rw_Reader s) = ((hd, None), r1) →
  DecodeError hd = None →
  (mutate op cmd s).1 = None
  ∧ wire (conn (mutate op cmd s).2)
    = wire (conn s) ++ encode (mutation_cmd op cmd) ++ set_Data cmd
  ∧ length (wire (conn (mutate op cmd s).2))
    = (length (wire (conn s)) + length (encode (mutation_cmd op cmd))
       + length (set_Data cmd))%nat.
Proof.
  intros Hb Hs Hr He.
  destruct (send_mutation_spec op cmd s) as [(Hrd & _ & _) Hsent].
  destruct (Hsent Hs) as (Hwire & _ & _).
  rewrite (mutate_sent op cmd s Hs).
  rewrite <- Hrd in Hr. rewrite (receive_mutation_success _ hd r1 Hr He). simpl.
  rewrite Hwire. unfold handed. rewrite Hb, app_nil_r.
  repeat split. rewrite !length_app. lia.
Qed.

(** C3, as the code has it.  The header is classified before it is
    released, but it is released before [readResponseHeader] returns it:
    on an error status the handler reads [TotalBodyLength] after the
    release, from the value it was handed back, and that value, the one
    decoded from the stream, is the count it discards, whatever the pool
    holds.  On a success status nothing is read after the release. *)
Theorem header_total_body_length_read_after_release op cmd s hd r1 :
  (send_mutation op cmd s).1 = None →
  ReadResponseHeader (rw_Reader s) = ((hd, None), r1) →
  resHeadPool (mutate op cmd s).2 = hd :: resHeadPool s
  ∧ match DecodeError hd with
    | Some e =>
        header_ops (mutate op cmd s).2
          = header_ops s ++ [OpObtain hd; OpClassify hd; OpRelease hd; OpReadTotalBodyLength hd]
        ∧ rw_Reader (mutate op cmd s).2
          = (Reader_Discard (Z.of_N (TotalBodyLength hd)) r1).2
    | None =>
        header_ops (mutate op cmd s).2
          = header_ops s ++ [OpObtain hd; OpClassify hd; OpRelease hd]
    end.
Proof.
  intros Hs Hr.
  destruct (send_mutation_spec op cmd s) as [(Hrd & Hpool & Hops) _].
  rewrite (mutate_sent op cmd s Hs). rewrite <- Hrd in Hr.
  destruct (DecodeError hd) as [e|] eqn:He.
  - rewrite (receive_mutation_error _ hd r1 e Hr He). simpl. by rewrite Hpool, Hops.
  - rewrite (receive_mutation_success _ hd r1 Hr He). simpl. by rewrite Hpool, Hops.
Qed.

(** C10. [Close] marks the connection closed and does nothing else: the
    bytes on the wire, the writer with its unflushed bytes, the reader,
    the counters and the pool are as before, and no later write or flush
    puts anything on the wire. *)
Theorem Close_closes_only_the_connection s :
  closed (conn (Handler_Close s).2) = true
  ∧ (Handler_Close s).1 = close_err (conn s)
  ∧ wire (conn (Handler_Close s).2) = wire (conn s)
  ∧ rw_Writer (Handler_Close s).2 = rw_Writer s
  ∧ rw_Reader (Handler_Close s).2 = rw_Reader s
  ∧ metrics (Handler_Close s).2 = metrics s
  ∧ resHeadPool (Handler_Close s).2 = resHeadPool s
  ∧ ∀ calls, wire (conn (writer_calls calls (Handler_Close s).2).2) = wire (conn s).
Proof.
  unfold Handler_Close, conn_Close. simpl. repeat split.
  intros calls. by rewrite writer_calls_closed.
Qed.

(** ** The batched pipelines *)

Lemma realHandleGet_loop_batch cmd keys : ∀ idx s,
  realHandleGet_loop cmd idx keys s = batch_loop get_read get_response cmd idx keys s.
Proof.
  induction keys as [|key keys IH]; intros idx s; [done|].
  cbn [realHandleGet_loop batch_loop]. unfold get_read, single_read, bind, ret.
  destruct (WriteGetCmd key 0 s) as [[e|] s1]; [done|].
  destruct (getLocal false s1) as [[[[data flags] exp] [e|]] s2]; simpl.
  - destruct (decide (e = ErrKeyNotFound)); simpl; [|done].
    destruct (Quiet cmd !! idx), (Opaques cmd !! idx); try done. by rewrite IH.
  - destruct (Quiet cmd !! idx), (Opaques cmd !! idx); try done. by rewrite IH.
Qed.

Lemma realHandleGetE_loop_batch cmd keys : ∀ idx s,
  realHandleGetE_loop cmd idx keys s = batch_loop gete_read gete_response cmd idx keys s.
Proof.
  induction keys as [|key keys IH]; intros idx s; [done|].
  cbn [realHandleGetE_loop batch_loop]. unfold gete_read, single_read, bind, ret.
  destruct (WriteGetECmd key 0 s) as [[e|] s1]; [done|].
  destruct (getLocal true s1) as [[[[data flags] exp] [e|]] s2]; simpl.
  - destruct (decide (e = ErrKeyNotFound)); simpl; [|done].
    destruct (Quiet cmd !! idx), (Opaques cmd !! idx); try done. by rewrite IH.
  - destruct (Quiet cmd !! idx), (Opaques cmd !! idx); try done. by rewrite IH.
Qed.

Section Batch.
Context {R : Type} (read : list byte → M Outcome) (mk : bool → N → list byte → Outcome → R).
Context (cmd : GetRequest).

Lemma reads_length keys : ∀ s, length (reads read keys s).1 = length keys.
Proof.
  induction keys as [|key keys IH]; intros s; [done|].
  simpl. unfold bind, ret. destruct (read key s) as [o s1].
  specialize (IH s1). destruct (reads read keys s1) as [os s2]. simpl in *. by rewrite IH.
Qed.

Lemma responses_length keys : ∀ idx outs,
  length outs = length keys → length (responses mk cmd idx keys outs) = length keys.
Proof.
  induction keys as [|key keys IH]; intros idx [|o outs] Hl; simpl in *; try done.
  rewrite IH; [done|lia].
Qed.

(** A response sits at the place of its key and carries that place's
    quiet flag and opaque token. *)
Lemma responses_lookup keys : ∀ idx outs i r,
  responses mk cmd idx keys outs !! i = Some r →
  ∃ key out, keys !! i = Some key ∧ outs !! i = Some out
    ∧ r = mk (default false (Quiet cmd !! (idx + i)%nat))
             (default 0 (Opaques cmd !! (idx + i)%nat)) key out.
Proof.
  induction keys as [|key keys IH]; intros idx [|o outs] i r; simpl; try done.
  destruct i as [|i]; simpl.
  - intros [= <-]. exists key, o. by rewrite Nat.add_0_r.
  - intros Hr. destruct (IH _ _ _ _ Hr) as (key' & out & ? & ? & ->).
    exists key', out. by rewrite Nat.add_succ_r.
Qed.

(** While the reads are not fatal and the indices are in range, the loop
    sends one response per key and goes on with the rest. *)
Lemma batch_loop_prefix pre : ∀ idx rest s,
  Forall (λ o, fatal o = None) (reads read pre s).1 →
  (idx + length pre ≤ length (Quiet cmd))%nat →
  (idx + length pre ≤ length (Opaques cmd))%nat →
  batch_loop read mk cmd idx (pre ++ rest) s =
    (let '((evs, x), s') :=
       batch_loop read mk cmd (idx + length pre) rest (reads read pre s).2 in
     ((map DataSend (responses mk cmd idx pre (reads read pre s).1) ++ evs, x), s')).
Proof.
  induction pre as [|key pre IH]; intros idx rest s Hnf Hq Ho; simpl in *.
  { rewrite Nat.add_0_r. by destruct (batch_loop _ _ _ _ _ _) as [[evs x] s']. }
  unfold bind, ret in *. destruct (read key s) as [o s1].
  specialize (IH (S idx) rest s1).
  destruct (reads read pre s1) as [os s2]; simpl in *.
  apply Forall_cons in Hnf as [Hf Hnf]. rewrite Hf.
  destruct (lookup_lt_is_Some_2 (Quiet cmd) idx) as [q Hq']; [lia|].
  destruct (lookup_lt_is_Some_2 (Opaques cmd) idx) as [op Ho']; [lia|].
  rewrite Hq', Ho'. simpl.
  rewrite IH by (done || lia). clear IH. rewrite Nat.add_succ_r.
  by destruct (batch_loop _ _ _ _ _ _) as [[evs x] s'].
Qed.

(** With both slices as long as the keys, no index is out of range. *)
Lemma batch_loop_in_range keys : ∀ idx s,
  (idx + length keys ≤ length (Quiet cmd))%nat →
  (idx + length keys ≤ length (Opaques cmd))%nat →
  (batch_loop read mk cmd idx keys s).1.2 = Returned.
Proof.
  induction keys as [|key keys IH]; intros idx s Hq Ho; simpl in *; [done|].
  unfold bind, ret. destruct (read key s) as [o s1].
  destruct (fatal o); [done|].
  destruct (lookup_lt_is_Some_2 (Quiet cmd) idx) as [q Hq']; [lia|].
  destruct (lookup_lt_is_Some_2 (Opaques cmd) idx) as [op Ho']; [lia|].
  rewrite Hq', Ho'. specialize (IH (S idx) s1).
  destruct (batch_loop _ _ _ _ _ _) as [[evs x] s']. simpl in *. apply IH; lia.
Qed.

(** All keys read without a fatal outcome: one response each, then
    the loop returns. *)
Lemma batch_loop_complete keys s :
  Forall (λ o, fatal o = None) (reads read keys s).1 →
  (length keys ≤ length (Quiet cmd))%nat →
  (length keys ≤ length (Opaques cmd))%nat →
  batch_loop read mk cmd 0 keys s =
    ((map DataSend (responses mk cmd 0 keys (reads read keys s).1), Returned),
     (reads read keys s).2).
Proof.
  intros Hnf Hq Ho.
  pose proof (batch_loop_prefix keys 0 [] s Hnf Hq Ho) as H.
  rewrite app_nil_r in H. rewrite H. simpl. by rewrite app_nil_r.
Qed.

(** The first [n] reads are not fatal and the next one is: [n]
    responses, the error, and the loop returns in the state that read
    left. *)
Lemma batch_loop_fatal keys n key e s :
  keys !! n = Some key →
  Forall (λ o, fatal o = None) (reads read (take n keys) s).1 →
  fatal (read key (reads read (take n keys) s).2).1 = Some e →
  (n ≤ length (Quiet cmd))%nat →
  (n ≤ length (Opaques cmd))%nat →
  batch_loop read mk cmd 0 keys s =
    ((map DataSend (responses mk cmd 0 (take n keys) (reads read (take n keys) s).1)
        ++ [ErrorSend e], Returned),
     (read key (reads read (take n keys) s).2).2).
Proof.
  intros Hk Hnf Hf Hq Ho.
  pose proof (lookup_lt_Some _ _ _ Hk) as Hn.
  rewrite <- (take_drop_middle keys n key Hk) at 1.
  rewrite batch_loop_prefix; rewrite ?length_take; try done; try lia.
  simpl. unfold bind, ret.
  destruct (read key _) as [o s1]; simpl in *. by rewrite Hf.
Qed.

(** The first [n] reads are not fatal, nor is the next one, whose index
    is past the end of a slice: [n] responses, then the panic. *)
Lemma batch_loop_panics keys n key s :
  keys !! n = Some key →
  Forall (λ o, fatal o = None) (reads read (take n keys) s).1 →
  fatal (read key (reads read (take n keys) s).2).1 = None →
  n = (length (Quiet cmd) `min` length (Opaques cmd))%nat →
  batch_loop read mk cmd 0 keys s =
    ((map DataSend (responses mk cmd 0 (take n keys) (reads read (take n keys) s).1),
      Panicked),
     (read key (reads read (take n keys) s).2).2).
Proof.
  intros Hk Hnf Hf Hmin.
  pose proof (lookup_lt_Some _ _ _ Hk) as Hn.
  rewrite <- (take_drop_middle keys n key Hk) at 1.
  rewrite batch_loop_prefix; rewrite ?length_take; try done; try lia.
  simpl. unfold bind, ret.
  destruct (read key _) as [o s1]; simpl in *. rewrite Hf.
  replace (n `min` length keys)%nat with n by lia.
  destruct (Nat.min_spec (length (Quiet cmd)) (length (Opaques cmd))) as [[? Hm]|[? Hm]].
  - rewrite (lookup_ge_None_2 (Quiet cmd) n) by lia. by rewrite app_nil_r.
  - rewrite (lookup_ge_None_2 (Opaques cmd) n) by lia.
    destruct (Quiet cmd !! n); by rewrite app_nil_r.
Qed.

(** The first [n] reads are not fatal, nor is the next one, whose index
    is in range: its response follows the first [n]. *)
Lemma batch_loop_sends keys n key q o s :
  keys !! n = Some key →
  Forall (λ out, fatal out = None) (reads read (take n keys) s).1 →
  fatal (read key (reads read (take n keys) s).2).1 = None →
  Quiet cmd !! n = Some q →
  Opaques cmd !! n = Some o →
  ∃ rest,
    (batch_loop read mk cmd 0 keys s).1.1 =
      map DataSend (responses mk cmd 0 (take n keys) (reads read (take n keys) s).1)
      ++ DataSend (mk q o key (read key (reads read (take n keys) s).2).1) :: rest.
Proof.
  intros Hk Hnf Hf Hq Ho.
  pose proof (lookup_lt_Some _ _ _ Hk) as Hn.
  pose proof (lookup_lt_Some _ _ _ Hq) as Hnq.
  pose proof (lookup_lt_Some _ _ _ Ho) as Hno.
  pose proof (batch_loop_prefix (take n keys) 0 (key :: drop (S n) keys) s Hnf) as Hpre.
  rewrite take_drop_middle, length_take in Hpre by done.
  rewrite Hpre by lia. clear Hpre.
  simpl. unfold bind, ret.
  destruct (read key _) as [out s1]; simpl in *. rewrite Hf.
  replace (n `min` length keys)%nat with n by lia. rewrite Hq, Ho.
  destruct (batch_loop _ _ _ _ _ _) as [[evs x] s']. simpl. by exists evs.
Qed.

Lemma responses_in_range keys outs i r :
  (length keys ≤ length (Quiet cmd))%nat →
  (length keys ≤ length (Opaques cmd))%nat →
  responses mk cmd 0 keys outs !! i = Some r →
  ∃ key out q o, keys !! i = Some key ∧ outs !! i = Some out
    ∧ Quiet cmd !! i = Some q ∧ Opaques cmd !! i = Some o ∧ r = mk q o key out.
Proof.
  intros Hq Ho Hr. destruct (responses_lookup _ _ _ _ _ Hr) as (key & out & Hk & Hout & ->).
  pose proof (lookup_lt_Some _ _ _ Hk) as Hi. simpl.
  destruct (lookup_lt_is_Some_2 (Quiet cmd) i) as [q Hq']; [lia|].
  destruct (lookup_lt_is_Some_2 (Opaques cmd) i) as [o Ho']; [lia|].
  exists key, out, q, o. by rewrite Hq', Ho'.
Qed.

End Batch.

Lemma realHandleGet_batch cmd s :
  Handler_Get cmd s =
    (let '((evs, x), s') := batch_loop get_read get_response cmd 0 (Keys cmd) s in
     ((evs ++ [DataClose; ErrorClose], x), s')).
Proof.
  unfold Handler_Get, realHandleGet, bind, ret. rewrite realHandleGet_loop_batch.
  by destruct (batch_loop _ _ _ _ _ _) as [[evs x] s'].
Qed.

Lemma realHandleGetE_batch cmd s :
  Handler_GetE cmd s =
    (let '((evs, x), s') := batch_loop gete_read gete_response cmd 0 (Keys cmd) s in
     ((evs ++ [DataClose; ErrorClose], x), s')).
Proof.
  unfold Handler_GetE, realHandleGetE, bind, ret. rewrite realHandleGetE_loop_batch.
  by destruct (batch_loop _ _ _ _ _ _) as [[evs x] s'].
Qed.

Lemma Forall_miss_not_fatal outs :
  Forall is_miss outs → Forall (λ o, fatal o = None) outs.
Proof. intros H. eapply Forall_impl; [exact H|]. by intros []. Qed.

(** C7. A batched Get, and a batched GetE, of N keys that all miss, on
    a request whose quiet flags and opaque tokens cover its keys: the task
    sends N miss responses, the i-th for the i-th key with that key's
    quiet flag and opaque token and a nil payload, sends no error, closes
    the data channel and then the error channel, and returns. *)
Theorem batch_all_miss cmd s :
  (length (Keys cmd) ≤ length (Quiet cmd))%nat →
  (length (Keys cmd) ≤ length (Opaques cmd))%nat →
  (Forall is_miss (reads get_read (Keys cmd) s).1 →
   ∃ rs,
     Handler_Get cmd s
       = ((map DataSend rs ++ [DataClose; ErrorClose], Returned),
          (reads get_read (Keys cmd) s).2)
     ∧ length rs = length (Keys cmd)
     ∧ ∀ i r, rs !! i = Some r →
         Miss r = true ∧ Data r = None ∧ Keys cmd !! i = Some (Key r)
         ∧ Quiet cmd !! i = Some (rQuiet r) ∧ Opaques cmd !! i = Some (Opaque r))
  ∧ (Forall is_miss (reads gete_read (Keys cmd) s).1 →
     ∃ rs,
       Handler_GetE cmd s
         = ((map DataSend rs ++ [DataClose; ErrorClose], Returned),
            (reads gete_read (Keys cmd) s).2)
       ∧ length rs = length (Keys cmd)
       ∧ ∀ i r, rs !! i = Some r →
           eMiss r = true ∧ eData r = None ∧ Keys cmd !! i = Some (eKey r)
           ∧ Quiet cmd !! i = Some (eQuiet r) ∧ Opaques cmd !! i = Some (eOpaque r)).
Proof.
  intros Hq Ho. split; intros Hmiss.
  - exists (responses get_response cmd 0 (Keys cmd) (reads get_read (Keys cmd) s).1).
    split; [|split].
    + rewrite realHandleGet_batch, batch_loop_complete; auto using Forall_miss_not_fatal.
    + apply responses_length, reads_length.
    + intros i r Hr.
      destruct (responses_in_range _ _ _ _ _ _ Hq Ho Hr) as (key & out & q & o & ? & Hout & ? & ? & ->).
      pose proof (Forall_lookup_1 _ _ _ _ Hmiss Hout) as Hm.
      destruct out; simpl in *; done.
  - exists (responses gete_response cmd 0 (Keys cmd) (reads gete_read (Keys cmd) s).1).
    split; [|split].
    + rewrite realHandleGetE_batch, batch_loop_complete; auto using Forall_miss_not_fatal.
    + apply responses_length, reads_length.
    + intros i r Hr.
      destruct (responses_in_range _ _ _ _ _ _ Hq Ho Hr) as (key & out & q & o & ? & Hout & ? & ? & ->).
      pose proof (Forall_lookup_1 _ _ _ _ Hmiss Hout) as Hm.
      destruct out; simpl in *; done.
Qed.

(** C2. A batched Get, and a batched GetE, in which the reads of the
    first [n] keys are not fatal and the read of the next key, the
    (n+1)-th, fails with [e] (a write error, or a read error other than
    key-not-found): the task sends exactly [n] responses, then the one
    error [e], closes the data channel and then the error channel, and
    returns in the state the failed read left, so no later key is
    written or read. *)
Theorem batch_fails_fast cmd s n key e :
  Keys cmd !! n = Some key →
  (n ≤ length (Quiet cmd))%nat →
  (n ≤ length (Opaques cmd))%nat →
  (Forall (λ o, fatal o = None) (reads get_read (take n (Keys cmd)) s).1 →
   fatal (get_read key (reads get_read (take n (Keys cmd)) s).2).1 = Some e →
   ∃ rs : list GetResponse,
     Handler_Get cmd s
       = ((map DataSend rs ++ [ErrorSend e; DataClose; ErrorClose], Returned),
          (get_read key (reads get_read (take n (Keys cmd)) s).2).2)
     ∧ length rs = n)
  ∧ (Forall (λ o, fatal o = None) (reads gete_read (take n (Keys cmd)) s).1 →
     fatal (gete_read key (reads gete_read (take n (Keys cmd)) s).2).1 = Some e →
     ∃ rs : list GetEResponse,
       Handler_GetE cmd s
         = ((map DataSend rs ++ [ErrorSend e; DataClose; ErrorClose], Returned),
            (gete_read key (reads gete_read (take n (Keys cmd)) s).2).2)
       ∧ length rs = n).
Proof.
  intros Hk Hq Ho. pose proof (lookup_lt_Some _ _ _ Hk) as Hn.
  split; intros Hnf Hf.
  - eexists. split.
    + rewrite realHandleGet_batch, (batch_loop_fatal _ _ _ _ n key e) by done.
      simpl. by rewrite <- app_assoc.
    + rewrite responses_length; rewrite ?reads_length, length_take; lia.
  - eexists. split.
    + rewrite realHandleGetE_batch, (batch_loop_fatal _ _ _ _ n key e) by done.
      simpl. by rewrite <- app_assoc.
    + rewrite responses_length; rewrite ?reads_length, length_take; lia.
Qed.

(** C4. A get-style request on an absent key gives a miss response with
    a nil payload and no error.  For GAT the response carries the
    request's opaque token (a GAT request has no quiet flag).  For a
    batched Get or GetE in which the reads before the absent key are not
    fatal, the response for that key follows the responses of the keys
    before it and carries the quiet flag and the opaque token found at the
    key's position in the request. *)
Theorem miss_is_a_response_not_an_error
    (gat : GATRequest) (cmd : GetRequest) (s : State) (n : nat) (key : list byte)
    (q : bool) (o flags exp : N) :
  ((single_read (WriteGATCmd (gat_Key gat) (gat_Exptime gat) 0) false s).1 = Missed flags exp →
   (Handler_GAT gat s).1
     = (mkGetResponse true false (gat_Opaque gat) flags (gat_Key gat) None, None))
  ∧ (Keys cmd !! n = Some key →
     Quiet cmd !! n = Some q →
     Opaques cmd !! n = Some o →
     (Forall (λ out, fatal out = None) (reads get_read (take n (Keys cmd)) s).1 →
      (get_read key (reads get_read (take n (Keys cmd)) s).2).1 = Missed flags exp →
      ∃ (rs : list GetResponse) rest,
        events (Handler_Get cmd s)
          = map DataSend rs ++ DataSend (mkGetResponse true q o flags key None) :: rest
        ∧ length rs = n)
     ∧ (Forall (λ out, fatal out = None) (reads gete_read (take n (Keys cmd)) s).1 →
        (gete_read key (reads gete_read (take n (Keys cmd)) s).2).1 = Missed flags exp →
        ∃ (rs : list GetEResponse) rest,
          events (Handler_GetE cmd s)
            = map DataSend rs ++ DataSend (mkGetEResponse true q o flags exp key None) :: rest
          ∧ length rs = n)).
Proof.
  split.
  - unfold Handler_GAT, single_read, bind, ret.
    destruct (WriteGATCmd _ _ _ s) as [[e|] s1]; simpl; [done|].
    destruct (getLocal false s1) as [[[[data fl] ex] [e|]] s2]; simpl; [|done].
    destruct (decide (e = ErrKeyNotFound)); simpl; [|done]. by intros [= -> _].
  - intros Hk Hq Ho. pose proof (lookup_lt_Some _ _ _ Hk) as Hn.
    split; intros Hnf Hm.
    + destruct (batch_loop_sends get_read get_response cmd (Keys cmd) n key q o s)
        as [rest Hev]; try done; [by rewrite Hm|].
      rewrite Hm in Hev. simpl in Hev.
      eexists _, (rest ++ [DataClose; ErrorClose]). split.
      * unfold events. rewrite realHandleGet_batch.
        destruct (batch_loop _ _ _ _ _ _) as [[evs x] s']. simpl in *.
        rewrite Hev, <- app_assoc. done.
      * rewrite responses_length; rewrite ?reads_length, length_take; lia.
    + destruct (batch_loop_sends gete_read gete_response cmd (Keys cmd) n key q o s)
        as [rest Hev]; try done; [by rewrite Hm|].
      rewrite Hm in Hev. simpl in Hev.
      eexists _, (rest ++ [DataClose; ErrorClose]). split.
      * unfold events. rewrite realHandleGetE_batch.
        destruct (batch_loop _ _ _ _ _ _) as [[evs x] s']. simpl in *.
        rewrite Hev, <- app_assoc. done.
      * rewrite responses_length; rewrite ?reads_length, length_take; lia.
Qed.

(** C8, as the code has it.  The two loops index [Quiet] and [Opaques]
    at each key's position without a length check.  When both slices are
    at least as long as [Keys], no index is out of range, whatever the
    server answers.  When one is shorter, the index goes out of range at
    the first position past its end, provided the loop gets there: the
    reads before that position and the read at it must not be fatal. *)
Theorem batch_index_out_of_range cmd s :
  ((length (Keys cmd) ≤ length (Quiet cmd))%nat →
   (length (Keys cmd) ≤ length (Opaques cmd))%nat →
   exit (Handler_Get cmd s) = Returned ∧ exit (Handler_GetE cmd s) = Returned)
  ∧ ∀ n key,
      n = (length (Quiet cmd) `min` length (Opaques cmd))%nat →
      Keys cmd !! n = Some key →
      (Forall (λ out, fatal out = None) (reads get_read (take n (Keys cmd)) s).1 →
       fatal (get_read key (reads get_read (take n (Keys cmd)) s).2).1 = None →
       exit (Handler_Get cmd s) = Panicked)
      ∧ (Forall (λ out, fatal out = None) (reads gete_read (take n (Keys cmd)) s).1 →
         fatal (gete_read key (reads gete_read (take n (Keys cmd)) s).2).1 = None →
         exit (Handler_GetE cmd s) = Panicked).
Proof.
  split.
  - intros Hq Ho. unfold exit. rewrite realHandleGet_batch, realHandleGetE_batch.
    pose proof (batch_loop_in_range get_read get_response cmd (Keys cmd) 0 s Hq Ho).
    pose proof (batch_loop_in_range gete_read gete_response cmd (Keys cmd) 0 s Hq Ho).
    destruct (batch_loop get_read _ _ _ _ _) as [[evs x] s'].
    destruct (batch_loop gete_read _ _ _ _ _) as [[evs' x'] s'']. done.
  - intros n key Hmin Hk. unfold exit. split; intros Hnf Hf.
    + rewrite realHandleGet_batch, (batch_loop_panics _ _ _ _ n key) by done. done.
    + rewrite realHandleGetE_batch, (batch_loop_panics _ _ _ _ n key) by done. done.
Qed.

(** C9. Whatever the request and the server's answer, the response
    [GAT] returns has its quiet flag unset. *)
Theorem GAT_response_is_never_quiet (cmd : GATRequest) (s : State) :
  rQuiet (Handler_GAT cmd s).1.1 = false.
Proof.
  unfold Handler_GAT, bind, ret.
  destruct (WriteGATCmd _ _ _ s) as [[e|] s1]; simpl; [done|].
  destruct (getLocal false s1) as [[[[data fl] ex] [e|]] s2]; simpl; [|done].
  by destruct (decide (e = ErrKeyNotFound)).
Qed.

End HandlerProperties.

(** ** The properties on concrete runs *)

Section Runs.
Import Memcached.

#[local] Existing Instance codec.
#[local] Existing Instance local.

(** Add of a key the server already has: the six bytes of the body are
    skipped, the next response is next on the stream, and the caller gets
    [ErrKeyExists]. *)
Lemma mutation_error_discards_body_witness :
  (mutate MAdd store_k1 answer_exists).1 = Some ErrKeyExists
  ∧ r_stream (rw_Reader (mutate MAdd store_k1 answer_exists).2)
    = drop (N.to_nat (TotalBodyLength exists_header))
           (r_stream (mkReader (bytes "Exists" ++ res_header 0x01 0 0 0 0) EOF))
  ∧ (length (r_stream (rw_Reader (mutate MAdd store_k1 answer_exists).2))
     + N.to_nat (TotalBodyLength exists_header)
     = length (r_stream (mkReader (bytes "Exists" ++ res_header 0x01 0 0 0 0) EOF)))%nat.
Proof.
  apply (mutation_error_discards_body MAdd store_k1 answer_exists exists_header
           (mkReader (bytes "Exists" ++ res_header 0x01 0 0 0 0) EOF) ErrKeyExists);
    vm_compute; reflexivity.
Defined.

(** The same answer cut short: the caller gets the stream's [EOF]. *)
Lemma mutation_discard_failure_wins_witness :
  (mutate MAdd store_k1 answer_exists_cut).1 = Some EOF
  ∧ EOF = r_err (mkReader (bytes "Exi") EOF).
Proof.
  apply (mutation_discard_failure_wins MAdd store_k1 answer_exists_cut exists_header
           (mkReader (bytes "Exi") EOF) ErrKeyExists EOF);
    vm_compute; reflexivity.
Defined.

(** Set on a fresh handler, stored by the server. *)
Lemma mutation_success_writes_command_and_payload_witness :
  (mutate MSet store_k1 answer_stored).1 = None
  ∧ wire (conn (mutate MSet store_k1 answer_stored).2)
    = wire (conn answer_stored) ++ encode (mutation_cmd MSet store_k1) ++ set_Data store_k1
  ∧ length (wire (conn (mutate MSet store_k1 answer_stored).2))
    = (length (wire (conn answer_stored)) + length (encode (mutation_cmd MSet store_k1))
       + length (set_Data store_k1))%nat.
Proof.
  apply (mutation_success_writes_command_and_payload MSet store_k1 answer_stored
           (mkResponseHeader 0x01 0 0 0 0 0 0) (mkReader [] EOF));
    vm_compute; reflexivity.
Defined.

(** C3, as stated, fails on Add of an existing key: the header's
    [TotalBodyLength] is read after the header was released. *)
Lemma header_used_after_release_counterexample :
  use_after_release false (header_ops (mutate MAdd store_k1 answer_exists).2) = true.
Proof. vm_compute. reflexivity. Qed.

Lemma header_total_body_length_read_after_release_witness :
  resHeadPool (mutate MAdd store_k1 answer_exists).2
    = exists_header :: resHeadPool answer_exists
  ∧ match DecodeError exists_header with
    | Some e =>
        header_ops (mutate MAdd store_k1 answer_exists).2
          = header_ops answer_exists
            ++ [OpObtain exists_header; OpClassify exists_header;
                OpRelease exists_header; OpReadTotalBodyLength exists_header]
        ∧ rw_Reader (mutate MAdd store_k1 answer_exists).2
          = (Reader_Discard (Z.of_N (TotalBodyLength exists_header))
               (mkReader (bytes "Exists" ++ res_header 0x01 0 0 0 0) EOF)).2
    | None =>
        header_ops (mutate MAdd store_k1 answer_exists).2
          = header_ops answer_exists
            ++ [OpObtain exists_header; OpClassify exists_header; OpRelease exists_header]
    end.
Proof.
  apply (header_total_body_length_read_after_release MAdd store_k1 answer_exists
           exists_header (mkReader (bytes "Exists" ++ res_header 0x01 0 0 0 0) EOF));
    vm_compute; reflexivity.
Defined.

(** A command written but not flushed is lost when the handler is
    closed: a later flush fails and the wire stays empty. *)
Example Close_drops_unflushed_command :
  w_buf (rw_Writer (WriteGATCmd (bytes "a") 60 0 (fresh [])).2) ≠ []
  ∧ (do _ <- WriteGATCmd (bytes "a") 60 0;
     do _ <- Handler_Close;
     Writer_Flush) (fresh [])
    = (Some ErrClosed,
       mkState (mkConn [] None true None) (mkReader [] EOF)
         (mkWriter (Some ErrClosed) (encode (CmdGAT (bytes "a") 60 0)) defaultBufSize)
         (mkMetrics 0 0) [] []).
Proof. split; [discriminate | vm_compute; reflexivity]. Qed.

(** Two keys, both absent. *)
Lemma batch_all_miss_witness :
  (∃ rs,
     Handler_Get get_ab (fresh (not_found ++ not_found))
       = ((map DataSend rs ++ [DataClose; ErrorClose], Returned),
          (reads get_read (Keys get_ab) (fresh (not_found ++ not_found))).2)
     ∧ length rs = length (Keys get_ab)
     ∧ ∀ i r, rs !! i = Some r →
         Miss r = true ∧ Data r = None ∧ Keys get_ab !! i = Some (Key r)
         ∧ Quiet get_ab !! i = Some (rQuiet r) ∧ Opaques get_ab !! i = Some (Opaque r))
  ∧ (∃ rs,
       Handler_GetE get_ab (fresh (not_found ++ not_found))
         = ((map DataSend rs ++ [DataClose; ErrorClose], Returned),
            (reads gete_read (Keys get_ab) (fresh (not_found ++ not_found))).2)
       ∧ length rs = length (Keys get_ab)
       ∧ ∀ i r, rs !! i = Some r →
           eMiss r = true ∧ eData r = None ∧ Keys get_ab !! i = Some (eKey r)
           ∧ Quiet get_ab !! i = Some (eQuiet r) ∧ Opaques get_ab !! i = Some (eOpaque r)).
Proof.
  destruct (batch_all_miss get_ab (fresh (not_found ++ not_found))) as [HGet HGetE];
    [vm_compute; lia | vm_compute; lia |].
  split; [apply HGet | apply HGetE]; vm_compute; repeat constructor.
Defined.

(** Two keys: the first is absent, the read of the second fails. *)
Lemma batch_fails_fast_witness :
  (∃ rs : list GetResponse,
     Handler_Get get_ab (fresh (not_found ++ out_of_memory))
       = ((map DataSend rs ++ [ErrorSend (ErrOther "bad status"); DataClose; ErrorClose],
           Returned),
          (get_read (bytes "b")
             (reads get_read (take 1 (Keys get_ab)) (fresh (not_found ++ out_of_memory))).2).2)
     ∧ length rs = 1%nat)
  ∧ (∃ rs : list GetEResponse,
       Handler_GetE get_ab (fresh (not_found ++ out_of_memory))
         = ((map DataSend rs ++ [ErrorSend (ErrOther "bad status"); DataClose; ErrorClose],
             Returned),
            (gete_read (bytes "b")
               (reads gete_read (take 1 (Keys get_ab)) (fresh (not_found ++ out_of_memory))).2).2)
       ∧ length rs = 1%nat).
Proof.
  destruct (batch_fails_fast get_ab (fresh (not_found ++ out_of_memory)) 1 (bytes "b")
              (ErrOther "bad status")) as [HGet HGetE];
    [reflexivity | vm_compute; lia | vm_compute; lia |].
  split; [apply HGet | apply HGetE]; vm_compute; repeat constructor.
Defined.

(** GAT of an absent key, and the second of two absent keys in a batch. *)
Lemma miss_is_a_response_not_an_error_witness :
  (Handler_GAT touch_a (fresh not_found)).1
    = (mkGetResponse true false 9 0 (bytes "a") None, None)
  ∧ (∃ (rs : list GetResponse) rest,
       events (Handler_Get get_ab (fresh (not_found ++ not_found)))
         = map DataSend rs ++ DataSend (mkGetResponse true false 8 0 (bytes "b") None) :: rest
       ∧ length rs = 1%nat)
  ∧ (∃ (rs : list GetEResponse) rest,
       events (Handler_GetE get_ab (fresh (not_found ++ not_found)))
         = map DataSend rs ++ DataSend (mkGetEResponse true false 8 0 0 (bytes "b") None) :: rest
       ∧ length rs = 1%nat).
Proof.
  destruct (miss_is_a_response_not_an_error touch_a get_ab (fresh not_found) 1 (bytes "b")
              false 8 0 0) as [HGAT _].
  destruct (miss_is_a_response_not_an_error touch_a get_ab (fresh (not_found ++ not_found))
              1 (bytes "b") false 8 0 0) as [_ HBatch].
  destruct HBatch as [HGet HGetE]; [reflexivity | reflexivity | reflexivity |].
  split; [apply HGAT; vm_compute; reflexivity|].
  split; [apply HGet | apply HGetE]; vm_compute; repeat constructor.
Defined.

(** C8, as stated, fails when the batch ends before the missing index is
    reached: here the only read fails, and the task returns. *)
Lemma batch_short_slices_no_panic_counterexample :
  (length (Quiet get_a_bare) < length (Keys get_a_bare))%nat
  ∧ (length (Opaques get_a_bare) < length (Keys get_a_bare))%nat
  ∧ events (Handler_Get get_a_bare (fresh out_of_memory))
    = [ErrorSend (ErrOther "bad status"); DataClose; ErrorClose]
  ∧ exit (Handler_Get get_a_bare (fresh out_of_memory)) = Returned
  ∧ exit (Handler_GetE get_a_bare (fresh out_of_memory)) = Returned.
Proof. vm_compute. repeat split; lia. Qed.

Lemma batch_index_out_of_range_witness :
  (exit (Handler_Get get_ab (fresh (not_found ++ not_found))) = Returned
   ∧ exit (Handler_GetE get_ab (fresh (not_found ++ not_found))) = Returned)
  ∧ exit (Handler_Get get_a_bare (fresh not_found)) = Panicked
  ∧ exit (Handler_GetE get_a_bare (fresh not_found)) = Panicked.
Proof.
  split.
  - apply (proj1 (batch_index_out_of_range get_ab (fresh (not_found ++ not_found))));
      vm_compute; lia.
  - destruct (proj2 (batch_index_out_of_range get_a_bare (fresh not_found)) 0%nat (bytes "a"))
      as [HGet HGetE]; [reflexivity | reflexivity |].
    split; [apply HGet | apply HGetE]; vm_compute; repeat constructor.
Defined.

End Runs.

(** ** Further properties of the mutation path *)

Section MutationPath.
Context {BP : Binprot}.

(** The request half ends with the writer's sticky error as its result. *)
Lemma send_mutation_err op cmd s :
  w_err (rw_Writer (send_mutation op cmd s).2) = (send_mutation op cmd s).1.
Proof.
  unfold send_mutation, bind, ret.
  pose proof (WriteCmd_spec (mutation_cmd op cmd) s) as (Hc1 & _).
  destruct (WriteCmd (mutation_cmd op cmd) s) as [[e|] s1]; simpl in *; [done|].
  destruct (Writer_Write (set_Data cmd) s1) as [[nn werr] s2]; simpl.
  match goal with |- context [Writer_Flush ?t] =>
    pose proof (Writer_Flush_spec t) as (Hf1 & _); by destruct (Writer_Flush t) end.
Qed.

(** The response half never touches the connection or the writer. *)
Lemma receive_mutation_frame s :
  conn (receive_mutation s).2 = conn s
  ∧ rw_Writer (receive_mutation s).2 = rw_Writer s
  ∧ MetricBytesWrittenLocal (metrics (receive_mutation s).2)
    = MetricBytesWrittenLocal (metrics s).
Proof.
  unfold receive_mutation, readResponseHeader, rw_ReadResponseHeader, rw_Discard, bind, ret.
  destruct (ReadResponseHeader (rw_Reader s)) as [[hd [e|]] r1]; simpl.
  - by destruct r1.
  - destruct (DecodeError hd); simpl; [|done].
    destruct (Reader_Discard (Z.of_N (TotalBodyLength hd)) r1) as [[n [io|]] r2]; done.
Qed.

(** The response half when the header cannot be read: the zero header's
    length, 0, is discarded, which always succeeds, and the read error is
    returned. *)
Lemma receive_mutation_read_failed s h e r1 :
  ReadResponseHeader (rw_Reader s) = ((h, Some e), r1) →
  (receive_mutation s).1 = Some e
  ∧ rw_Reader (receive_mutation s).2 = r1
  ∧ resHeadPool (receive_mutation s).2 = resHeadPool s.
Proof.
  intros Hr.
  unfold receive_mutation, readResponseHeader, rw_ReadResponseHeader, bind, ret.
  rewrite Hr. simpl. by destruct r1.
Qed.

(** X1. A mutation returns [nil] exactly when its request went out, a
    response header could be read, and that header is classified as
    success. *)
Theorem mutation_nil_iff_success op cmd s :
  (mutate op cmd s).1 = None ↔
  (send_mutation op cmd s).1 = None
  ∧ ∃ hd r1, ReadResponseHeader (rw_Reader s) = ((hd, None), r1) ∧ DecodeError hd = None.
Proof.
  destruct (send_mutation_spec op cmd s) as [(Hrd & _ & _) _].
  split.
  - intros Hnil. rewrite mutate_phases in Hnil. unfold bind in Hnil.
    destruct (send_mutation op cmd s) as [[e|] s1] eqn:Hs; simpl in *; [done|].
    split; [done|]. rewrite <- Hrd.
    destruct (ReadResponseHeader (rw_Reader s1)) as [[hd [e|]] r1] eqn:Hr.
    + destruct (receive_mutation_read_failed s1 hd e r1 Hr) as (He & _). congruence.
    + exists hd, r1. split; [done|].
      destruct (DecodeError hd) as [e|] eqn:He; [|done].
      rewrite (receive_mutation_error s1 hd r1 e Hr He) in Hnil. simpl in Hnil.
      by destruct (Reader_Discard _ r1) as [[n [io|]] r2].
  - intros (Hs & hd & r1 & Hr & He).
    rewrite (mutate_sent op cmd s Hs). rewrite <- Hrd in Hr.
    by rewrite (receive_mutation_success _ hd r1 Hr He).
Qed.

(** X2. When the request half fails, the mutation returns that error
    without reading a response: the reader, the pool and the header log
    are untouched, and the writer keeps the error. *)
Theorem mutation_request_failure op cmd s e :
  (send_mutation op cmd s).1 = Some e →
  (mutate op cmd s).1 = Some e
  ∧ rw_Reader (mutate op cmd s).2 = rw_Reader s
  ∧ resHeadPool (mutate op cmd s).2 = resHeadPool s
  ∧ header_ops (mutate op cmd s).2 = header_ops s
  ∧ w_err (rw_Writer (mutate op cmd s).2) = Some e.
Proof.
  intros Hs.
  destruct (send_mutation_spec op cmd s) as [(Hrd & Hpool & Hops) _].
  pose proof (send_mutation_err op cmd s) as Herr.
  rewrite mutate_phases. unfold bind.
  destruct (send_mutation op cmd s) as [err s1]; simpl in *. subst err. simpl.
  repeat split; done.
Qed.

(** X3. When the request went out but the response header cannot be
    read, the mutation returns the read error, discards nothing beyond
    what the failed read consumed, and releases no header to the pool. *)
Theorem mutation_header_read_failure op cmd s h e r1 :
  (send_mutation op cmd s).1 = None →
  ReadResponseHeader (rw_Reader s) = ((h, Some e), r1) →
  (mutate op cmd s).1 = Some e
  ∧ rw_Reader (mutate op cmd s).2 = r1
  ∧ resHeadPool (mutate op cmd s).2 = resHeadPool s.
Proof.
  intros Hs Hr.
  destruct (send_mutation_spec op cmd s) as [(Hrd & Hpool & _) _].
  rewrite (mutate_sent op cmd s Hs). rewrite <- Hrd in Hr.
  destruct (receive_mutation_read_failed _ h e r1 Hr) as (? & ? & ?).
  repeat split; congruence.
Qed.

(** X4. Once the request has been flushed, whatever comes back (a
    success, an error status, a cut stream), the connection holds
    everything handed to the writer followed by the command and the
    payload, and the writer is left empty and without error. *)
Theorem mutation_sent_leaves_writer_flushed op cmd s :
  (send_mutation op cmd s).1 = None →
  wire (conn (mutate op cmd s).2)
    = handed s ++ encode (mutation_cmd op cmd) ++ set_Data cmd
  ∧ w_buf (rw_Writer (mutate op cmd s).2) = []
  ∧ w_err (rw_Writer (mutate op cmd s).2) = None.
Proof.
  intros Hs.
  destruct (send_mutation_spec op cmd s) as [_ Hsent].
  destruct (Hsent Hs) as (Hwire & Hbuf & _).
  pose proof (send_mutation_err op cmd s) as Herr. rewrite Hs in Herr.
  rewrite (mutate_sent op cmd s Hs).
  destruct (receive_mutation_frame (send_mutation op cmd s).2) as (-> & -> & _).
  done.
Qed.

(** X5. Two mutations in a row on a handler with an empty write buffer:
    the first is answered with an error status and a body, the second with
    success.  The first returns the classified error, the second reads its
    header right after the discarded body and returns [nil], and the
    connection has received the two commands with their payloads, in
    order. *)
Theorem mutation_after_error_stays_in_frame op1 cmd1 op2 cmd2 s hd1 r1 e1 hd2 r2 :
  w_buf (rw_Writer s) = [] →
  (send_mutation op1 cmd1 s).1 = None →
  ReadResponseHeader (rw_Reader s) = ((hd1, None), r1) →
  DecodeError hd1 = Some e1 →
  (Reader_Discard (Z.of_N (TotalBodyLength hd1)) r1).1.2 = None →
  (send_mutation op2 cmd2 (mutate op1 cmd1 s).2).1 = None →
  ReadResponseHeader (mkReader (drop (N.to_nat (TotalBodyLength hd1)) (r_stream r1)) (r_err r1))
    = ((hd2, None), r2) →
  DecodeError hd2 = None →
  (mutate op1 cmd1 s).1 = Some e1
  ∧ (mutate op2 cmd2 (mutate op1 cmd1 s).2).1 = None
  ∧ wire (conn (mutate op2 cmd2 (mutate op1 cmd1 s).2).2)
    = wire (conn s) ++ encode (mutation_cmd op1 cmd1) ++ set_Data cmd1
        ++ encode (mutation_cmd op2 cmd2) ++ set_Data cmd2
  ∧ rw_Reader (mutate op2 cmd2 (mutate op1 cmd1 s).2).2 = r2.
Proof.
  intros Hb Hs1 Hr1 He1 Hd1 Hs2 Hr2 He2.
  destruct (mutation_sent_leaves_writer_flushed op1 cmd1 s Hs1) as (Hw1 & Hb1 & _).
  assert (Hfirst : (mutate op1 cmd1 s).1 = Some e1
                   ∧ rw_Reader (mutate op1 cmd1 s).2
                     = mkReader (drop (N.to_nat (TotalBodyLength hd1)) (r_stream r1)) (r_err r1)).
  { destruct (send_mutation_spec op1 cmd1 s) as [(Hrd & _ & _) _].
    rewrite (mutate_sent op1 cmd1 s Hs1). rewrite <- Hrd in Hr1.
    rewrite (receive_mutation_error _ hd1 r1 e1 Hr1 He1).
    destruct (Reader_Discard_ok _ _ Hd1) as (_ & _ & Hr').
    rewrite Hd1, Hr'. done. }
  destruct Hfirst as [Hres1 Hrd1]. split; [done|].
  set (s1 := (mutate op1 cmd1 s).2) in *.
  destruct (mutation_sent_leaves_writer_flushed op2 cmd2 s1 Hs2) as (Hw2 & _ & _).
  destruct (send_mutation_spec op2 cmd2 s1) as [(Hrd & _ & _) _].
  rewrite (mutate_sent op2 cmd2 s1 Hs2) in *.
  rewrite <- Hrd1, <- Hrd in Hr2.
  rewrite (receive_mutation_success _ hd2 r2 Hr2 He2) in *. simpl in *.
  split; [done|]. split; [|done].
  rewrite Hw2. unfold handed. rewrite Hb1, app_nil_r, Hw1. unfold handed.
  rewrite Hb, app_nil_r, <- !app_assoc. done.
Qed.

End MutationPath.

Section MutationCounters.
Context {BP : Binprot}.




End MutationCounters.

(** ** A writer that has failed *)

Section FailedWriter.
Context {BP : Binprot} {SL : StdLocal}.

Lemma WriteCmd_failed_writer c s e :
  w_err (rw_Writer s) = Some e → WriteCmd c s = (Some e, s).
Proof.
  intros He. unfold WriteCmd, Writer_Write, bind, ret. simpl.
  rewrite He. rewrite bool_decide_eq_false_2, andb_false_r by done. by rewrite He.
Qed.

(** X8. Once the writer holds an error, every command fails with that
    error and changes nothing: no byte reaches the connection, no response
    is read, and a batched get with at least one key sends the error and
    closes both channels. *)
Theorem failed_writer_fails_every_command s e :
  w_err (rw_Writer s) = Some e →
  (∀ op cmd, mutate op cmd s = (Some e, s))
  ∧ (∀ cmd, Handler_GAT cmd s = ((emptyGetResponse, Some e), s))
  ∧ (∀ cmd, Handler_Delete cmd s = (Some e, s))
  ∧ (∀ cmd, Handler_Touch cmd s = (Some e, s))
  ∧ (∀ cmd, Keys cmd ≠ [] →
       Handler_Get cmd s = (([ErrorSend e; DataClose; ErrorClose], Returned), s)
       ∧ Handler_GetE cmd s = (([ErrorSend e; DataClose; ErrorClose], Returned), s)).
Proof.
  intros He. repeat split.
  - intros op cmd. rewrite mutate_phases. unfold send_mutation, bind, ret.
    by rewrite (WriteCmd_failed_writer _ s e He).
  - intros cmd. unfold Handler_GAT, WriteGATCmd, bind, ret.
    by rewrite (WriteCmd_failed_writer _ s e He).
  - intros cmd. unfold Handler_Delete, WriteDeleteCmd, bind, ret.
    by rewrite (WriteCmd_failed_writer _ s e He).
  - intros cmd. unfold Handler_Touch, WriteTouchCmd, bind, ret.
    by rewrite (WriteCmd_failed_writer _ s e He).
  - unfold Handler_Get, realHandleGet, bind, ret.
    destruct (Keys cmd) as [|key keys]; [done|]. simpl. unfold WriteGetCmd, bind, ret.
    by rewrite (WriteCmd_failed_writer _ s e He).
  - unfold Handler_GetE, realHandleGetE, bind, ret.
    destruct (Keys cmd) as [|key keys]; [done|]. simpl. unfold WriteGetECmd, bind, ret.
    by rewrite (WriteCmd_failed_writer _ s e He).
Qed.

(** X9. A mutation whose request half failed leaves a handler on which
    every later mutation fails with the same error, with nothing more
    written or read. *)
Theorem mutation_failure_is_sticky op cmd s e op' cmd' :
  (send_mutation op cmd s).1 = Some e →
  mutate op' cmd' (mutate op cmd s).2 = (Some e, (mutate op cmd s).2).
Proof.
  intros Hs.
  pose proof (send_mutation_err op cmd s) as Herr. rewrite Hs in Herr.
  assert (Hw : w_err (rw_Writer (mutate op cmd s).2) = Some e).
  { rewrite mutate_phases. unfold bind.
    destruct (send_mutation op cmd s) as [err s1]; simpl in *. by subst err. }
  rewrite mutate_phases. unfold send_mutation, bind, ret.
  by rewrite (WriteCmd_failed_writer _ _ e Hw).
Qed.

End FailedWriter.

(** ** Further properties of the batched pipelines and of GAT *)

Section BatchShape.
Context {BP : Binprot} {SL : StdLocal}.
Context {R : Type} (read : list byte → M Outcome) (mk : bool → N → list byte → Outcome → R).
Context (cmd : GetRequest).

(** The loop sends responses, then at most one error, and an error is
    the last thing it sends. *)
Lemma batch_loop_shape keys : ∀ idx s,
  ∃ (rs : list R) (tail : list (ChanEvent R)),
    (batch_loop read mk cmd idx keys s).1.1 = map DataSend rs ++ tail
    ∧ (length rs ≤ length keys)%nat
    ∧ ((tail = [] ∧ ((batch_loop read mk cmd idx keys s).1.2 = Panicked
                     ∨ length rs = length keys))
       ∨ (∃ e, tail = [ErrorSend e]
               ∧ (batch_loop read mk cmd idx keys s).1.2 = Returned
               ∧ (length rs < length keys)%nat)).
Proof.
  induction keys as [|key keys IH]; intros idx s; simpl.
  { exists [], []. repeat split; auto. }
  unfold bind, ret. destruct (read key s) as [out s1].
  destruct (fatal out) as [e|].
  { exists [], [ErrorSend e]. simpl. repeat split; [lia|]. right. exists e. repeat split. lia. }
  destruct (Quiet cmd !! idx) as [q|]; [destruct (Opaques cmd !! idx) as [o|]|].
  - destruct (IH (S idx) s1) as (rs & tail & Hev & Hlen & Hcase).
    destruct (batch_loop read mk cmd (S idx) keys s1) as [[evs x] s']. simpl in *.
    exists (mk q o key out :: rs), tail. simpl. rewrite Hev. repeat split; [lia|].
    destruct Hcase as [(-> & [->|Hl])|(e & -> & -> & Hl)].
    + left. auto.
    + left. split; [done|]. right. lia.
    + right. exists e. repeat split. lia.
  - exists [], []. simpl. repeat split; [lia|]. left. auto.
  - exists [], []. simpl. repeat split; [lia|]. left. auto.
Qed.

Context (P : nat → list byte → R → Prop).
Context (HP : ∀ idx q o key out,
  fatal out = None → Quiet cmd !! idx = Some q → Opaques cmd !! idx = Some o →
  P idx key (mk q o key out)).

(** Every response the loop sends sits at the position of its key. *)
Lemma batch_loop_data keys : ∀ idx s i r,
  (batch_loop read mk cmd idx keys s).1.1 !! i = Some (DataSend r) →
  ∃ key, keys !! i = Some key ∧ P (idx + i) key r.
Proof using HP.
  induction keys as [|key keys IH]; intros idx s i r; simpl; [done|].
  unfold bind, ret. destruct (read key s) as [out s1].
  destruct (fatal out) as [e|] eqn:Hf.
  { destruct i; simpl; [done|]. by rewrite lookup_nil. }
  destruct (Quiet cmd !! idx) as [q|] eqn:Hq;
    [destruct (Opaques cmd !! idx) as [o|] eqn:Ho|]; simpl; try by rewrite lookup_nil.
  specialize (IH (S idx) s1).
  destruct (batch_loop read mk cmd (S idx) keys s1) as [[evs x] s']. simpl in *.
  destruct i as [|i]; simpl.
  - intros [= <-]. exists key. rewrite Nat.add_0_r. split; [done|]. by apply HP.
  - intros Hev. destruct (IH i r Hev) as (key' & ? & HPr).
    exists key'. rewrite Nat.add_succ_r. done.
Qed.

End BatchShape.

Section BatchMore.
Context {BP : Binprot} {SL : StdLocal}.

Lemma lookup_before_closes {R : Type} (evs : list (ChanEvent R)) i (r : R) :
  (evs ++ [DataClose; ErrorClose]) !! i = Some (DataSend r) → evs !! i = Some (DataSend r).
Proof.
  intros H. apply lookup_app_Some in H as [H|[_ H]]; [done|].
  destruct (i - length evs)%nat as [|[|k]]; simpl in H; done.
Qed.

(** X10. Whatever the server answers, the task of a batched Get or
    GetE sends responses first, at most as many as there are keys, then
    at most one error, then closes the data channel and the error channel.
    After an error nothing is sent, and without an error the task either
    sent one response per key or panicked on an index. *)
Theorem batch_events_shape cmd s :
  (∃ (rs : list GetResponse) tail,
     events (Handler_Get cmd s) = map DataSend rs ++ tail ++ [DataClose; ErrorClose]
     ∧ (length rs ≤ length (Keys cmd))%nat
     ∧ ((tail = [] ∧ (exit (Handler_Get cmd s) = Panicked
                      ∨ length rs = length (Keys cmd)))
        ∨ (∃ e, tail = [ErrorSend e] ∧ exit (Handler_Get cmd s) = Returned
                ∧ (length rs < length (Keys cmd))%nat)))
  ∧ (∃ (rs : list GetEResponse) tail,
       events (Handler_GetE cmd s) = map DataSend rs ++ tail ++ [DataClose; ErrorClose]
       ∧ (length rs ≤ length (Keys cmd))%nat
       ∧ ((tail = [] ∧ (exit (Handler_GetE cmd s) = Panicked
                        ∨ length rs = length (Keys cmd)))
          ∨ (∃ e, tail = [ErrorSend e] ∧ exit (Handler_GetE cmd s) = Returned
                  ∧ (length rs < length (Keys cmd))%nat))).
Proof.
  split.
  - destruct (batch_loop_shape get_read get_response cmd (Keys cmd) 0 s)
      as (rs & tail & Hev & Hlen & Hcase).
    exists rs, tail. unfold events, exit. rewrite realHandleGet_batch.
    destruct (batch_loop _ _ _ _ _ _) as [[evs x] s']. simpl in *.
    rewrite Hev, <- app_assoc. done.
  - destruct (batch_loop_shape gete_read gete_response cmd (Keys cmd) 0 s)
      as (rs & tail & Hev & Hlen & Hcase).
    exists rs, tail. unfold events, exit. rewrite realHandleGetE_batch.
    destruct (batch_loop _ _ _ _ _ _) as [[evs x] s']. simpl in *.
    rewrite Hev, <- app_assoc. done.
Qed.

(** X11. Whatever the server answers, the i-th event of a batched Get
    or GetE, when it is a response, is the response for the i-th key: it
    carries that key, the quiet flag and the opaque token at position i of
    the request, and a nil payload when it is a miss. *)
Theorem batch_responses_match_request cmd s i (r : GetResponse) (r' : GetEResponse) :
  (events (Handler_Get cmd s) !! i = Some (DataSend r) →
   Keys cmd !! i = Some (Key r) ∧ Quiet cmd !! i = Some (rQuiet r)
   ∧ Opaques cmd !! i = Some (Opaque r) ∧ (Miss r = false ∨ Data r = None))
  ∧ (events (Handler_GetE cmd s) !! i = Some (DataSend r') →
     Keys cmd !! i = Some (eKey r') ∧ Quiet cmd !! i = Some (eQuiet r')
     ∧ Opaques cmd !! i = Some (eOpaque r') ∧ (eMiss r' = false ∨ eData r' = None)).
Proof.
  split; intros Hev; unfold events in Hev.
  - rewrite realHandleGet_batch in Hev.
    pose proof (batch_loop_data get_read get_response cmd
      (λ idx key r, Key r = key ∧ Quiet cmd !! idx = Some (rQuiet r)
                    ∧ Opaques cmd !! idx = Some (Opaque r)
                    ∧ (Miss r = false ∨ Data r = None))) as Hdata.
    destruct (batch_loop _ _ _ _ _ _) as [[evs x] s'] eqn:Hl. simpl in Hev.
    apply lookup_before_closes in Hev.
    destruct (Hdata (λ idx q o key out Hf Hq Ho,
                ltac:(destruct out; simpl in *; try done; auto)) (Keys cmd) 0%nat s i r)
      as (key & Hk & <- & ? & ? & ?); [by rewrite Hl|]. done.
  - rewrite realHandleGetE_batch in Hev.
    pose proof (batch_loop_data gete_read gete_response cmd
      (λ idx key r, eKey r = key ∧ Quiet cmd !! idx = Some (eQuiet r)
                    ∧ Opaques cmd !! idx = Some (eOpaque r)
                    ∧ (eMiss r = false ∨ eData r = None))) as Hdata.
    destruct (batch_loop _ _ _ _ _ _) as [[evs x] s'] eqn:Hl. simpl in Hev.
    apply lookup_before_closes in Hev.
    destruct (Hdata (λ idx q o key out Hf Hq Ho,
                ltac:(destruct out; simpl in *; try done; auto)) (Keys cmd) 0%nat s i r')
      as (key & Hk & <- & ? & ? & ?); [by rewrite Hl|]. done.
Qed.

(** X12. A batched Get or GetE without keys writes nothing, reads
    nothing and just closes the two channels. *)
Theorem batch_without_keys cmd s :
  Keys cmd = [] →
  Handler_Get cmd s = (([DataClose; ErrorClose], Returned), s)
  ∧ Handler_GetE cmd s = (([DataClose; ErrorClose], Returned), s).
Proof.
  intros Hk. unfold Handler_Get, Handler_GetE, realHandleGet, realHandleGetE, bind, ret.
  by rewrite Hk.
Qed.

(** X13. A batched Get or GetE in which no read is fatal, on a request
    whose quiet flags and opaque tokens cover its keys: the task sends one
    response per key, hits and misses alike, in key order, sends no error,
    closes both channels and returns. *)
Theorem batch_without_fatal_read cmd s :
  (length (Keys cmd) ≤ length (Quiet cmd))%nat →
  (length (Keys cmd) ≤ length (Opaques cmd))%nat →
  (Forall (λ out, fatal out = None) (reads get_read (Keys cmd) s).1 →
   Handler_Get cmd s
     = ((map DataSend (responses get_response cmd 0 (Keys cmd) (reads get_read (Keys cmd) s).1)
           ++ [DataClose; ErrorClose], Returned),
        (reads get_read (Keys cmd) s).2)
   ∧ length (responses get_response cmd 0 (Keys cmd) (reads get_read (Keys cmd) s).1)
     = length (Keys cmd))
  ∧ (Forall (λ out, fatal out = None) (reads gete_read (Keys cmd) s).1 →
     Handler_GetE cmd s
       = ((map DataSend (responses gete_response cmd 0 (Keys cmd) (reads gete_read (Keys cmd) s).1)
             ++ [DataClose; ErrorClose], Returned),
          (reads gete_read (Keys cmd) s).2)
     ∧ length (responses gete_response cmd 0 (Keys cmd) (reads gete_read (Keys cmd) s).1)
       = length (Keys cmd)).
Proof.
  intros Hq Ho. split; intros Hnf; split.
  - by rewrite realHandleGet_batch, batch_loop_complete.
  - apply responses_length, reads_length.
  - by rewrite realHandleGetE_batch, batch_loop_complete.
  - apply responses_length, reads_length.
Qed.

(** X14. A key that is found.  GAT returns a response with the data and
    the flags read, the request's key and opaque token, and no error.  In
    a batched Get or GetE in which the reads before the key are not fatal,
    the response for the key follows those of the keys before it and
    carries the data and the flags read, and for GetE the expiration time,
    which Get drops. *)
Theorem hit_carries_data_and_flags
    (gat : GATRequest) (cmd : GetRequest) (s : State) (n : nat) (key : list byte)
    (q : bool) (o flags exp : N) (data : option (list byte)) :
  ((single_read (WriteGATCmd (gat_Key gat) (gat_Exptime gat) 0) false s).1
     = Found data flags exp →
   (Handler_GAT gat s).1
     = (mkGetResponse false false (gat_Opaque gat) flags (gat_Key gat) data, None))
  ∧ (Keys cmd !! n = Some key →
     Quiet cmd !! n = Some q →
     Opaques cmd !! n = Some o →
     (Forall (λ out, fatal out = None) (reads get_read (take n (Keys cmd)) s).1 →
      (get_read key (reads get_read (take n (Keys cmd)) s).2).1 = Found data flags exp →
      ∃ (rs : list GetResponse) rest,
        events (Handler_Get cmd s)
          = map DataSend rs ++ DataSend (mkGetResponse false q o flags key data) :: rest
        ∧ length rs = n)
     ∧ (Forall (λ out, fatal out = None) (reads gete_read (take n (Keys cmd)) s).1 →
        (gete_read key (reads gete_read (take n (Keys cmd)) s).2).1 = Found data flags exp →
        ∃ (rs : list GetEResponse) rest,
          events (Handler_GetE cmd s)
            = map DataSend rs ++ DataSend (mkGetEResponse false q o flags exp key data) :: rest
          ∧ length rs = n)).
Proof.
  split.
  - unfold Handler_GAT, single_read, bind, ret.
    destruct (WriteGATCmd _ _ _ s) as [[e|] s1]; simpl; [done|].
    destruct (getLocal false s1) as [[[[data' fl] ex] [e|]] s2]; simpl.
    + by destruct (decide (e = ErrKeyNotFound)).
    + by intros [= -> -> _].
  - intros Hk Hq Ho. pose proof (lookup_lt_Some _ _ _ Hk) as Hn.
    split; intros Hnf Hm.
    + destruct (batch_loop_sends get_read get_response cmd (Keys cmd) n key q o s)
        as [rest Hev]; try done; [by rewrite Hm|].
      rewrite Hm in Hev. simpl in Hev.
      eexists _, (rest ++ [DataClose; ErrorClose]). split.
      * unfold events. rewrite realHandleGet_batch.
        destruct (batch_loop _ _ _ _ _ _) as [[evs x] s']. simpl in *.
        rewrite Hev, <- app_assoc. done.
      * rewrite responses_length; rewrite ?reads_length, length_take; lia.
    + destruct (batch_loop_sends gete_read gete_response cmd (Keys cmd) n key q o s)
        as [rest Hev]; try done; [by rewrite Hm|].
      rewrite Hm in Hev. simpl in Hev.
      eexists _, (rest ++ [DataClose; ErrorClose]). split.
      * unfold events. rewrite realHandleGetE_batch.
        destruct (batch_loop _ _ _ _ _ _) as [[evs x] s']. simpl in *.
        rewrite Hev, <- app_assoc. done.
      * rewrite responses_length; rewrite ?reads_length, length_take; lia.
Qed.

(** X15. Whatever the server answers, GAT returns either an error with
    the zero response, or no error with a response that carries the
    request's key and opaque token and, on a miss, a nil payload. *)
Theorem GAT_result_shape cmd s :
  match (Handler_GAT cmd s).1 with
  | (r, Some _) => r = emptyGetResponse
  | (r, None) =>
      Key r = gat_Key cmd ∧ Opaque r = gat_Opaque cmd
      ∧ (Miss r = false ∨ Data r = None)
  end.
Proof.
  unfold Handler_GAT, bind, ret.
  destruct (WriteGATCmd _ _ _ s) as [[e|] s1]; simpl; [done|].
  destruct (getLocal false s1) as [[[[data fl] ex] [e|]] s2]; simpl; [|auto].
  destruct (decide (e = ErrKeyNotFound)); simpl; auto.
Qed.

(** X16. Once its command has been written, GAT never reports
    key-not-found as an error: an absent key is a miss response. *)
Theorem GAT_miss_is_never_an_error cmd s :
  (WriteGATCmd (gat_Key cmd) (gat_Exptime cmd) 0 s).1 = None →
  (Handler_GAT cmd s).1.2 ≠ Some ErrKeyNotFound.
Proof.
  unfold Handler_GAT, bind, ret.
  destruct (WriteGATCmd _ _ _ s) as [[e|] s1]; simpl; [done|]. intros _.
  destruct (getLocal false s1) as [[[[data fl] ex] [e|]] s2]; simpl; [|done].
  destruct (decide (e = ErrKeyNotFound)); simpl; congruence.
Qed.

End BatchMore.

Section SingleResponse.
Context {BP : Binprot} {SL : StdLocal}.


End SingleResponse.

(** ** The further properties on concrete runs *)

Section MoreRuns.
Import Memcached.

#[local] Existing Instance codec.
#[local] Existing Instance local.

(** A connection that breaks after ten bytes: the flush fails. *)
Lemma mutation_request_failure_witness :
  (mutate MSet store_k1 (choked 10 [])).1 = Some (ErrOther "broken pipe")
  ∧ rw_Reader (mutate MSet store_k1 (choked 10 [])).2 = rw_Reader (choked 10 [])
  ∧ resHeadPool (mutate MSet store_k1 (choked 10 [])).2 = resHeadPool (choked 10 [])
  ∧ header_ops (mutate MSet store_k1 (choked 10 [])).2 = header_ops (choked 10 [])
  ∧ w_err (rw_Writer (mutate MSet store_k1 (choked 10 [])).2) = Some (ErrOther "broken pipe").
Proof.
  apply (mutation_request_failure MSet store_k1 (choked 10 []) (ErrOther "broken pipe")).
  vm_compute. reflexivity.
Defined.

(** A server that hangs up without answering. *)
Lemma mutation_header_read_failure_witness :
  (mutate MSet store_k1 (fresh [])).1 = Some EOF
  ∧ rw_Reader (mutate MSet store_k1 (fresh [])).2 = mkReader [] EOF
  ∧ resHeadPool (mutate MSet store_k1 (fresh [])).2 = resHeadPool (fresh []).
Proof.
  apply (mutation_header_read_failure MSet store_k1 (fresh []) emptyResHeader EOF
           (mkReader [] EOF)); vm_compute; reflexivity.
Defined.

Lemma mutation_sent_leaves_writer_flushed_witness :
  wire (conn (mutate MAdd store_k1 answer_exists_cut).2)
    = handed answer_exists_cut ++ encode (mutation_cmd MAdd store_k1) ++ set_Data store_k1
  ∧ w_buf (rw_Writer (mutate MAdd store_k1 answer_exists_cut).2) = []
  ∧ w_err (rw_Writer (mutate MAdd store_k1 answer_exists_cut).2) = None.
Proof.
  apply (mutation_sent_leaves_writer_flushed MAdd store_k1 answer_exists_cut).
  vm_compute. reflexivity.
Defined.

(** Add of an existing key, then Set of another one. *)
Lemma mutation_after_error_stays_in_frame_witness :
  (mutate MAdd store_k1 answer_exists).1 = Some ErrKeyExists
  ∧ (mutate MSet store_k2 (mutate MAdd store_k1 answer_exists).2).1 = None
  ∧ wire (conn (mutate MSet store_k2 (mutate MAdd store_k1 answer_exists).2).2)
    = wire (conn answer_exists) ++ encode (mutation_cmd MAdd store_k1) ++ set_Data store_k1
        ++ encode (mutation_cmd MSet store_k2) ++ set_Data store_k2
  ∧ rw_Reader (mutate MSet store_k2 (mutate MAdd store_k1 answer_exists).2).2
    = mkReader [] EOF.
Proof.
  apply (mutation_after_error_stays_in_frame MAdd store_k1 MSet store_k2 answer_exists
           exists_header (mkReader (bytes "Exists" ++ res_header 0x01 0 0 0 0) EOF)
           ErrKeyExists (mkResponseHeader 0x01 0 0 0 0 0 0) (mkReader [] EOF));
    vm_compute; reflexivity.
Defined.


Lemma failed_writer_fails_every_command_witness :
  mutate MSet store_k1 (broken ErrShortWrite) = (Some ErrShortWrite, broken ErrShortWrite)
  ∧ Handler_GAT touch_a (broken ErrShortWrite)
    = ((emptyGetResponse, Some ErrShortWrite), broken ErrShortWrite)
  ∧ Handler_Delete (mkDeleteRequest (bytes "a")) (broken ErrShortWrite)
    = (Some ErrShortWrite, broken ErrShortWrite)
  ∧ Handler_Touch (mkTouchRequest (bytes "a") 60) (broken ErrShortWrite)
    = (Some ErrShortWrite, broken ErrShortWrite)
  ∧ Handler_Get get_ab (broken ErrShortWrite)
    = (([ErrorSend ErrShortWrite; DataClose; ErrorClose], Returned), broken ErrShortWrite)
  ∧ Handler_GetE get_ab (broken ErrShortWrite)
    = (([ErrorSend ErrShortWrite; DataClose; ErrorClose], Returned), broken ErrShortWrite).
Proof.
  destruct (failed_writer_fails_every_command (broken ErrShortWrite) ErrShortWrite)
    as (Hmut & Hgat & Hdel & Htouch & Hget); [reflexivity|].
  destruct (Hget get_ab) as [HGet HGetE]; [discriminate|].
  repeat split; auto.
Defined.

Lemma mutation_failure_is_sticky_witness :
  mutate MAdd store_k2 (mutate MSet store_k1 (choked 10 [])).2
  = (Some (ErrOther "broken pipe"), (mutate MSet store_k1 (choked 10 [])).2).
Proof.
  apply (mutation_failure_is_sticky MSet store_k1 (choked 10 []) (ErrOther "broken pipe")).
  vm_compute. reflexivity.
Defined.

(** The second of two keys is found. *)
Lemma batch_responses_match_request_witness :
  (Keys get_ab !! 1%nat = Some (bytes "b") ∧ Quiet get_ab !! 1%nat = Some false
   ∧ Opaques get_ab !! 1%nat = Some 8 ∧ (false = false ∨ Some (bytes "vb") = None))
  ∧ (Keys get_ab !! 1%nat = Some (bytes "b") ∧ Quiet get_ab !! 1%nat = Some false
     ∧ Opaques get_ab !! 1%nat = Some 8 ∧ (false = false ∨ Some (bytes "vb") = None)).
Proof.
  destruct (batch_responses_match_request get_ab (fresh (not_found ++ found_vb)) 1
              (mkGetResponse false false 8 5 (bytes "b") (Some (bytes "vb")))
              (mkGetEResponse false false 8 5 0 (bytes "b") (Some (bytes "vb"))))
    as [HGet HGetE].
  split; [apply HGet | apply HGetE]; vm_compute; reflexivity.
Defined.

Lemma batch_without_keys_witness :
  Handler_Get (mkGetRequest [] [] []) (fresh not_found)
    = (([DataClose; ErrorClose], Returned), fresh not_found)
  ∧ Handler_GetE (mkGetRequest [] [] []) (fresh not_found)
    = (([DataClose; ErrorClose], Returned), fresh not_found).
Proof. apply (batch_without_keys (mkGetRequest [] [] []) (fresh not_found)). reflexivity. Defined.

(** A miss, then a hit. *)
Lemma batch_without_fatal_read_witness :
  (Handler_Get get_ab (fresh (not_found ++ found_vb))
     = ((map DataSend (responses get_response get_ab 0 (Keys get_ab)
                         (reads get_read (Keys get_ab) (fresh (not_found ++ found_vb))).1)
           ++ [DataClose; ErrorClose], Returned),
        (reads get_read (Keys get_ab) (fresh (not_found ++ found_vb))).2)
   ∧ length (responses get_response get_ab 0 (Keys get_ab)
               (reads get_read (Keys get_ab) (fresh (not_found ++ found_vb))).1)
     = length (Keys get_ab))
  ∧ (Handler_GetE get_ab (fresh (not_found ++ found_vb))
       = ((map DataSend (responses gete_response get_ab 0 (Keys get_ab)
                           (reads gete_read (Keys get_ab) (fresh (not_found ++ found_vb))).1)
             ++ [DataClose; ErrorClose], Returned),
          (reads gete_read (Keys get_ab) (fresh (not_found ++ found_vb))).2)
     ∧ length (responses gete_response get_ab 0 (Keys get_ab)
                 (reads gete_read (Keys get_ab) (fresh (not_found ++ found_vb))).1)
       = length (Keys get_ab)).
Proof.
  destruct (batch_without_fatal_read get_ab (fresh (not_found ++ found_vb)))
    as [HGet HGetE]; [vm_compute; lia | vm_compute; lia |].
  split; [apply HGet | apply HGetE]; vm_compute; repeat constructor.
Defined.

Lemma hit_carries_data_and_flags_witness :
  (Handler_GAT touch_a (fresh found_vb)).1
    = (mkGetResponse false false 9 5 (bytes "a") (Some (bytes "vb")), None)
  ∧ (∃ (rs : list GetResponse) rest,
       events (Handler_Get get_ab (fresh (not_found ++ found_vb)))
         = map DataSend rs
           ++ DataSend (mkGetResponse false false 8 5 (bytes "b") (Some (bytes "vb"))) :: rest
       ∧ length rs = 1%nat)
  ∧ (∃ (rs : list GetEResponse) rest,
       events (Handler_GetE get_ab (fresh (not_found ++ found_vb)))
         = map DataSend rs
           ++ DataSend (mkGetEResponse false false 8 5 0 (bytes "b") (Some (bytes "vb"))) :: rest
       ∧ length rs = 1%nat).
Proof.
  destruct (hit_carries_data_and_flags touch_a get_ab (fresh found_vb) 1 (bytes "b")
              false 8 5 0 (Some (bytes "vb"))) as [HGAT _].
  destruct (hit_carries_data_and_flags touch_a get_ab (fresh (not_found ++ found_vb))
              1 (bytes "b") false 8 5 0 (Some (bytes "vb"))) as [_ HBatch].
  destruct HBatch as [HGet HGetE]; [reflexivity | reflexivity | reflexivity |].
  split; [apply HGAT; vm_compute; reflexivity|].
  split; [apply HGet | apply HGetE]; vm_compute; repeat constructor.
Defined.

Lemma GAT_miss_is_never_an_error_witness :
  (Handler_GAT touch_a (fresh not_found)).1.2 ≠ Some ErrKeyNotFound.
Proof.
  apply (GAT_miss_is_never_an_error touch_a (fresh not_found)). vm_compute. reflexivity.
Defined.


End MoreRuns.
